(** * chatdb: the data-access layer of bagoup

    A shallow embedding of [chatdb/chatdb.go] and the properties its
    specification states about it.

    The package talks to three libraries that are not part of the repository:
    [database/sql] (the connection and its row cursor), [Masterminds/semver]
    (the version marker) and [go-vcard] (the contact cards).  Each has a small
    model below, restricted to the calls the package makes; whatever the
    package cannot observe is kept abstract in a class ([Driver], [Semver]) so
    that every theorem holds for all behaviours of the library. *)

From stdpp Require Import gmap strings list fin_maps pretty.

(* ===================================================================== *)
(** * Go values *)
(* ===================================================================== *)

(** Go's [error] values, as far as the package builds or forwards them. *)
Inductive error : Type :=
| New (msg : string)                    (* errors.New, fmt.Errorf: a message *)
| Wrap (cause : error) (msg : string)   (* errors.Wrap, errors.Wrapf *)
| ScanError (col : nat) (cause : error). (* database/sql: conversion of a column failed *)

(** [fmt.Sprintf("%d", n)] on a Go [int]. *)
Definition itoa (n : Z) : string := pretty n.

(** The line feed that ends a rendered line. *)
Definition newline : string := String (Ascii.ascii_of_nat 10) "".

(* ===================================================================== *)
(** * github.com/Masterminds/semver *)
(* ===================================================================== *)

Module semver.

(** [semver.Version]: the three numeric segments (int64), the pre-release
    tag and the build metadata.  The struct also keeps the text it was parsed
    from, which no method used here reads. *)
Record Version : Type := mkVersion {
  major : Z;
  minor : Z;
  patch : Z;
  pre : string;
  metadata : string
}.

(** The order of two non-empty pre-release tags is the library's business;
    the package never reaches it, because its threshold has no tag. *)
Class Semver : Type := {
  comparePrerelease : string → string → Z
}.

Definition compareSegment (v o : Z) : Z :=
  if (v <? o)%Z then (-1)%Z
  else if (o <? v)%Z then 1%Z
  else 0%Z.

Section Compare.
Context `{Semver}.

(** [Version.Compare]: -1, 0 or 1. *)
Definition Compare (v o : Version) : Z :=
  let d := compareSegment (major v) (major o) in
  if negb (d =? 0)%Z then d else
  let d := compareSegment (minor v) (minor o) in
  if negb (d =? 0)%Z then d else
  let d := compareSegment (patch v) (patch o) in
  if negb (d =? 0)%Z then d else
  let ps := pre v in
  let po := pre o in
  if String.eqb ps "" && String.eqb po "" then 0%Z
  else if String.eqb ps "" then 1%Z
  else if String.eqb po "" then (-1)%Z
  else comparePrerelease ps po.

Definition LessThan (v o : Version) : bool := (Compare v o <? 0)%Z.
End Compare.

End semver.

(* ===================================================================== *)
(** * github.com/emersion/go-vcard *)
(* ===================================================================== *)

Module vcard.

(** [vcard.Name]: the components of the N field. *)
Record Name : Type := mkName {
  FamilyName : string;
  GivenName : string;
  AdditionalName : string;
  HonorificPrefix : string;
  HonorificSuffix : string
}.

Definition FieldFormattedName : string := "FN".

(** [vcard.Card], seen through the two accessors the package calls:
    [Name()] (nil when the card has no N field) and [PreferredValue(k)]
    (the empty string when the card has no field [k]). *)
Record Card : Type := mkCard {
  CardName : option Name;
  PreferredValue : string → string
}.

End vcard.

(* ===================================================================== *)
(** * database/sql *)
(* ===================================================================== *)

Module sql.

(** What the driver hands over for a column ([driver.Value]) and how
    [convertAssign] stores it into an [*int] or a [*string] destination.
    A Go [int] is 64 bits wide; the package does no arithmetic on the
    integers it reads, only comparisons and printing, so they are kept in
    [Z]. *)
Class Driver : Type := {
  Value : Type;
  convertAssignInt : Value → error + Z;
  convertAssignString : Value → error + string
}.

Definition errRowsClosed : error := New "sql: Rows are closed".
Definition errNoNext : error := New "sql: Scan called without calling Next".
Definition errArgs (cols dests : nat) : error :=
  New ("sql: expected " +:+ pretty cols +:+
       " destination arguments in Scan, not " +:+ pretty dests).

(** Destinations of a [Scan]: [*int] and [*string]. *)
Inductive dest : Type := ptrInt | ptrString.

Definition deref (d : dest) : Type :=
  match d with ptrInt => Z | ptrString => string end.

Fixpoint tuple (ds : list dest) : Type :=
  match ds with
  | [] => unit
  | d :: ds => (deref d * tuple ds)%type
  end.

Section Rows.
Context `{Driver}.

(** The answer of the store to one query: the rows in the order the store
    yields them, and the error (if any) with which the driver stops
    instead of reporting the end of the rows. *)
Record ResultSet : Type := mkResultSet {
  rows : list (list Value);
  failure : option error
}.

(** [*sql.Rows]: the cursor over a result set. *)
Record Rows : Type := mkRows {
  pending : list (list Value);
  atEnd : option error;
  lastcols : option (list Value);
  closed : bool;
  lasterr : option error
}.

Definition open (r : ResultSet) : Rows :=
  {| pending := rows r; atEnd := failure r;
     lastcols := None; closed := false; lasterr := None |}.

(** [Rows.Next]: fetch the next row, or close the cursor when none is
    left (remembering a driver error other than the end of the rows). *)
Definition Next (rs : Rows) : bool * Rows :=
  if closed rs then (false, rs) else
  match pending rs with
  | r :: rest =>
      (true, {| pending := rest; atEnd := atEnd rs;
                lastcols := Some r; closed := false; lasterr := None |})
  | [] =>
      (false, {| pending := []; atEnd := atEnd rs;
                 lastcols := lastcols rs; closed := true;
                 lasterr := atEnd rs |})
  end.

Definition convertAssign (d : dest) (v : Value) : error + deref d :=
  match d with
  | ptrInt => convertAssignInt v
  | ptrString => convertAssignString v
  end.

Fixpoint assign (i : nat) (ds : list dest) (cols : list Value)
  : error + tuple ds :=
  match ds, cols with
  | [], _ => inr tt
  | d :: ds', c :: cols' =>
      match convertAssign d c with
      | inl e => inl (ScanError i e)
      | inr x =>
          match assign (S i) ds' cols' with
          | inl e => inl e
          | inr xs => inr (x, xs)
          end
      end
  | d :: ds', [] => inl (errArgs 0 (length ds))
  end.

(** Decoding of one delivered row into the destinations [ds]; the number
    of columns is checked before any conversion, so [assign] never runs
    out of columns. *)
Definition scanRow (ds : list dest) (cols : list Value) : error + tuple ds :=
  if decide (length ds = length cols)
  then assign 0 ds cols
  else inl (errArgs (length cols) (length ds)).

(** [Rows.Scan]: a pending error first, then a closed cursor, then a
    cursor on which [Next] never succeeded, then the conversion. *)
Definition Scan (ds : list dest) (rs : Rows) : error + tuple ds :=
  match lasterr rs with
  | Some e => inl e
  | None =>
      if closed rs then inl errRowsClosed else
      match lastcols rs with
      | None => inl errNoNext
      | Some cols => scanRow ds cols
      end
  end.

(** [*sql.DB], as the capability the package uses: one query string in,
    a result set or an error out.  The store is only read. *)
Record DB : Type := mkDB {
  exec : string → error + ResultSet
}.

Definition Query (db : DB) (query : string) : error + Rows :=
  match exec db query with
  | inl e => inl e
  | inr r => inr (open r)
  end.
End Rows.

End sql.

(* ===================================================================== *)
(** * Package chatdb *)
(* ===================================================================== *)

Import semver vcard sql.

Definition _githubIssueMsg : string :=
  "open an issue at https://github.com/tagatac/bagoup/issues".

Definition _datetimeFormulaLegacy : string :=
  "date + STRFTIME('%s', '2001-01-01 00:00:00'), 'unixepoch', 'localtime'".
Definition _datetimeFormula : string :=
  "(date/1000000000) + STRFTIME('%s', '2001-01-01 00:00:00'), 'unixepoch', 'localtime'".

(** [semver.MustParse("10.13")]: a missing patch segment is 0, and there is
    neither a pre-release tag nor build metadata. *)
Definition _modernVersion : Version :=
  {| major := 10; minor := 13; patch := 0; pre := ""; metadata := "" |}.

(** A row from the chat table. *)
Record Chat : Type := mkChat {
  ID : Z;
  GUID : string;
  DisplayName : string
}.

Section chatdb.
Context `{Driver} `{Semver}.

Record chatDB : Type := mkChatDB {
  DB : sql.DB;
  datetimeFormula : string;
  selfHandle : string
}.

(** [NewChatDB] fills in the connection and the self label; the formula
    override keeps Go's zero value, the empty string. *)
Definition NewChatDB (db : sql.DB) (selfHandle : string) : chatDB :=
  {| DB := db; datetimeFormula := ""; selfHandle := selfHandle |}.

(** ** Control flow *)

(** [for rows.Next() { body }] on an open cursor: each round [Next] moves
    the first pending row into the cursor, on which the body may [Scan];
    the body either returns from the enclosing function ([inl]) or goes on
    with the updated locals ([inr]).  The loop ends when no row is pending
    (the cursor's final error is not looked at: the package never calls
    [rows.Err()]). *)
Fixpoint forNext {R S : Type} (body : Rows → S → R + S)
    (atEnd : option error) (pending : list (list Value)) (locals : S) : R + S :=
  match pending with
  | [] => inr locals
  | r :: rest =>
      match body {| sql.pending := rest; sql.atEnd := atEnd;
                    lastcols := Some r; closed := false; lasterr := None |}
                 locals with
      | inl ret => inl ret
      | inr locals' => forNext body atEnd rest locals'
      end
  end.

Definition forRows {R S : Type} (body : Rows → S → R + S)
    (rs : Rows) (locals : S) : R + S :=
  forNext body (sql.atEnd rs) (sql.pending rs) locals.

(** Methods with a pointer receiver run in a state monad over [*d]. *)
Definition M (A : Type) : Type := chatDB → A * chatDB.

#[local] Instance M_ret : MRet M := λ A a d, (a, d).
#[local] Instance M_bind : MBind M :=
  λ A B k m d, let (a, d') := m d in k a d'.

(** Reading the receiver. *)
Definition this : M chatDB := λ d, (d, d).

(** ** The four operations *)

Definition GetHandleMap (d : chatDB) (contactMap : gmap string Card)
  : option (gmap Z string) * option error :=
  let handleMap : gmap Z string := ∅ in
  match Query (DB d) "SELECT ROWID, id FROM handle" with
  | inl err => (None, Some (Wrap err "get handles from DB"))
  | inr handles =>
      match
        forRows (λ handles (handleMap : gmap Z string),
          match Scan [ptrInt; ptrString] handles with
          | inl err => inl (None, Some (Wrap err "read handle"))
          | inr (handleID, (handle, _)) =>
              if decide (is_Some (handleMap !! handleID)) then
                inl (None, Some (New (
                  "multiple handles with the same ID: " +:+ itoa handleID +:+
                  " - handle ID uniqueness assumption violated - " +:+
                  _githubIssueMsg)))
              else
                let handle :=
                  match contactMap !! handle with
                  | Some card =>
                      match CardName card with
                      | Some name =>
                          if negb (String.eqb (GivenName name) "")
                          then GivenName name else handle
                      | None => handle
                      end
                  | None => handle
                  end in
                inr (<[handleID := handle]> handleMap)
          end) handles handleMap
      with
      | inl ret => ret
      | inr handleMap => (Some handleMap, None)
      end
  end.

Definition GetChats (d : chatDB) (contactMap : gmap string Card)
  : option (list Chat) * option error :=
  match Query (DB d)
          "SELECT ROWID, guid, chat_identifier, COALESCE(display_name, '') FROM chat" with
  | inl err => (None, Some (Wrap err "query chats table"))
  | inr chatRows =>
      let chats : list Chat := [] in
      match
        forRows (λ chatRows (chats : list Chat),
          match Scan [ptrInt; ptrString; ptrString; ptrString] chatRows with
          | inl err => inl (None, Some (Wrap err "read chat"))
          | inr (id, (guid, (name, (displayName, _)))) =>
              let displayName :=
                if String.eqb displayName "" then name else displayName in
              let displayName :=
                match contactMap !! displayName with
                | Some card =>
                    let contactName := PreferredValue card FieldFormattedName in
                    if negb (String.eqb contactName "")
                    then contactName else displayName
                | None => displayName
                end in
              inr (chats ++ [ {| ID := id; GUID := guid;
                                 DisplayName := displayName |} ])
          end) chatRows chats
      with
      | inl ret => ret
      | inr chats => (Some chats, None)
      end
  end.

Definition GetMessageIDs (d : chatDB) (chatID : Z)
  : option (list Z) * option error :=
  match Query (DB d)
          ("SELECT message_id FROM chat_message_join WHERE chat_id=" +:+
           itoa chatID) with
  | inl err =>
      (None, Some (Wrap err ("query chat_message_join table for chat ID " +:+
                             itoa chatID)))
  | inr rows =>
      let messageIDs : list Z := [] in
      match
        forRows (λ rows (messageIDs : list Z),
          match Scan [ptrInt] rows with
          | inl err =>
              inl (None, Some (Wrap err ("read message ID for chat ID " +:+
                                         itoa chatID)))
          | inr (messageID, _) => inr (messageIDs ++ [messageID])
          end) rows messageIDs
      with
      | inl ret => ret
      | inr messageIDs => (Some messageIDs, None)
      end
  end.

Definition getDatetimeFormula (macOSVersion : option Version) : M string :=
  d ← this;
  if negb (String.eqb (datetimeFormula d) "") then mret (datetimeFormula d)
  else
    match macOSVersion with
    | Some v =>
        if LessThan v _modernVersion then mret _datetimeFormulaLegacy
        else mret _datetimeFormula
    | None => mret _datetimeFormula
    end.

Definition GetMessage (messageID : Z) (handleMap : gmap Z string)
    (macOSVersion : option Version) : M (string * option error) :=
  formula ← getDatetimeFormula macOSVersion;
  d ← this;
  match Query (DB d)
          ("SELECT is_from_me, handle_id, COALESCE(text, ''), DATETIME(" +:+
           formula +:+ ") FROM message WHERE ROWID=" +:+ itoa messageID) with
  | inl err =>
      mret ("", Some (Wrap err ("query message table for ID " +:+
                                itoa messageID)))
  | inr messages =>
      let '(_, messages) := Next messages in
      match Scan [ptrInt; ptrInt; ptrString; ptrString] messages with
      | inl err =>
          mret ("", Some (Wrap err ("read data for message ID " +:+
                                    itoa messageID)))
      | inr (fromMe, (handleID, (text, (date, _)))) =>
          let '(more, messages) := Next messages in
          if more then
            mret ("", Some (New (
              "multiple messages with the same ID: " +:+ itoa messageID +:+
              " - message ID uniqeness assumption violated - " +:+
              _githubIssueMsg)))
          else
            let handle := default "" (handleMap !! handleID) in
            let handle := if (fromMe =? 1)%Z then selfHandle d else handle in
            mret ("[" +:+ date +:+ "] " +:+ handle +:+ ": " +:+ text +:+
                  newline, None)
      end
  end.
End chatdb.

(* ===================================================================== *)
(** * The interface, call by call *)
(* ===================================================================== *)

(** A caller holds the [ChatDB] interface value returned by [NewChatDB], a
    pointer to the [chatDB] struct, and can do nothing with it but call the
    four methods. *)
Inductive call : Type :=
| callGetHandleMap (contactMap : gmap string Card)
| callGetChats (contactMap : gmap string Card)
| callGetMessageIDs (chatID : Z)
| callGetMessage (messageID : Z) (handleMap : gmap Z string)
                 (macOSVersion : option Version).

Inductive reply : Type :=
| replyHandleMap (r : option (gmap Z string) * option error)
| replyChats (r : option (list Chat) * option error)
| replyMessageIDs (r : option (list Z) * option error)
| replyMessage (r : string * option error).

Section calls.
Context `{Driver} `{Semver}.

(** The methods with a value receiver work on a copy of [*d]; [GetMessage]
    has a pointer receiver and works on [*d] itself. *)
Definition invoke (c : call) : M reply :=
  match c with
  | callGetHandleMap contactMap =>
      λ d, (replyHandleMap (GetHandleMap d contactMap), d)
  | callGetChats contactMap =>
      λ d, (replyChats (GetChats d contactMap), d)
  | callGetMessageIDs chatID =>
      λ d, (replyMessageIDs (GetMessageIDs d chatID), d)
  | callGetMessage messageID handleMap macOSVersion =>
      λ d, let (r, d') := GetMessage messageID handleMap macOSVersion d in
           (replyMessage r, d')
  end.

Fixpoint invokeAll (cs : list call) : M (list reply) :=
  match cs with
  | [] => λ d, ([], d)
  | c :: cs' =>
      λ d, let (r, d') := invoke c d in
           let (rs, d'') := invokeAll cs' d' in
           (r :: rs, d'')
  end.
End calls.

(* ===================================================================== *)
(** * Vocabulary of the specification *)
(* ===================================================================== *)

(** The error taxonomy of the specification.  The package declares no error
    types: an error is a message, or a cause wrapped with an annotation, and
    a kind can only be told from the text the package attaches. *)
Inductive ErrorKind : Type :=
| QueryError
| ReadError
| DuplicateHandleError
| DuplicateMessageError
| NotFoundError.

(** [hasPrefix p s]: the text [s] starts with [p]. *)
Fixpoint hasPrefix (p s : string) : bool :=
  match p with
  | "" => true
  | String a p' =>
      match s with
      | "" => false
      | String b s' => Ascii.eqb a b && hasPrefix p' s'
      end
  end.

(** The kind of an error, by the annotation of the return statement that
    built it: the four query annotations, the four read annotations and the
    two uniqueness messages.  No return statement of the package annotates an
    error as "not found". *)
Definition error_kind (e : error) : option ErrorKind :=
  match e with
  | Wrap _ msg =>
      if String.eqb msg "get handles from DB" then Some QueryError
      else if hasPrefix "query " msg then Some QueryError
      else if hasPrefix "read " msg then Some ReadError
      else None
  | New msg =>
      if hasPrefix "multiple handles with the same ID: " msg
      then Some DuplicateHandleError
      else if hasPrefix "multiple messages with the same ID: " msg
      then Some DuplicateMessageError
      else None
  | ScanError _ _ => None
  end.

(** The uniqueness messages, naming the identifier. *)
Definition duplicateHandleMsg (handleID : Z) : string :=
  "multiple handles with the same ID: " +:+ itoa handleID +:+
  " - handle ID uniqueness assumption violated - " +:+ _githubIssueMsg.

Definition duplicateMessageMsg (messageID : Z) : string :=
  "multiple messages with the same ID: " +:+ itoa messageID +:+
  " - message ID uniqeness assumption violated - " +:+ _githubIssueMsg.

(** The query strings the package sends. *)
Definition handleQuery : string := "SELECT ROWID, id FROM handle".

Definition chatQuery : string :=
  "SELECT ROWID, guid, chat_identifier, COALESCE(display_name, '') FROM chat".

Definition messageIDsQuery (chatID : Z) : string :=
  "SELECT message_id FROM chat_message_join WHERE chat_id=" +:+ itoa chatID.

Definition messageQuery (formula : string) (messageID : Z) : string :=
  "SELECT is_from_me, handle_id, COALESCE(text, ''), DATETIME(" +:+
  formula +:+ ") FROM message WHERE ROWID=" +:+ itoa messageID.

(** One rendered line. *)
Definition line (date speaker text : string) : string :=
  "[" +:+ date +:+ "] " +:+ speaker +:+ ": " +:+ text +:+ newline.

(** What the loop of [GetHandleMap] stores for an address. *)
Definition resolveHandle (contactMap : gmap string Card) (handle : string) : string :=
  match contactMap !! handle with
  | Some card =>
      match CardName card with
      | Some name =>
          if negb (String.eqb (GivenName name) "") then GivenName name else handle
      | None => handle
      end
  | None => handle
  end.

(** The [Chat] the loop of [GetChats] appends for a decoded row. *)
Definition resolveChat (contactMap : gmap string Card)
    (x : Z * string * string * string) : Chat :=
  let '(id, guid, name, displayName) := x in
  let displayName := if String.eqb displayName "" then name else displayName in
  let displayName :=
    match contactMap !! displayName with
    | Some card =>
        let contactName := PreferredValue card FieldFormattedName in
        if negb (String.eqb contactName "") then contactName else displayName
    | None => displayName
    end in
  {| ID := id; GUID := guid; DisplayName := displayName |}.

(** Semantic-version precedence below the threshold 10.13: a smaller
    (major, minor, patch) triple, or the triple 10.13.0 itself carrying a
    pre-release tag. *)
Definition below_10_13 (v : Version) : Prop :=
  (major v < 10)%Z ∨
  (major v = 10 ∧ minor v < 13)%Z ∨
  (major v = 10 ∧ minor v = 13 ∧ patch v < 0)%Z ∨
  (major v = 10%Z ∧ minor v = 13%Z ∧ patch v = 0%Z ∧ pre v ≠ "").

(** The formula as a function of the version marker alone. *)
Definition formulaOfVersion `{Semver} (macOSVersion : option Version) : string :=
  match macOSVersion with
  | Some v => if LessThan v _modernVersion then _datetimeFormulaLegacy
              else _datetimeFormula
  | None => _datetimeFormula
  end.

Section decoding.
Context `{Driver}.

(** The delivered rows [rws] decode, row by row, into the typed rows
    [xs]. *)
Definition handleRows (rws : list (list Value)) (xs : list (Z * string)) : Prop :=
  Forall2 (λ cols x, scanRow [ptrInt; ptrString] cols = inr (x.1, (x.2, tt)))
          rws xs.

Definition chatRows (rws : list (list Value))
    (xs : list (Z * string * string * string)) : Prop :=
  Forall2 (λ cols x,
             scanRow [ptrInt; ptrString; ptrString; ptrString] cols
             = inr (x.1.1.1, (x.1.1.2, (x.1.2, (x.2, tt)))))
          rws xs.

Definition joinRows (rws : list (list Value)) (xs : list Z) : Prop :=
  Forall2 (λ cols x, scanRow [ptrInt] cols = inr (x, tt)) rws xs.

(** One round of the loop of [GetHandleMap], on the cursor and the map
    built so far. *)
Definition handlesBody (contactMap : gmap string Card)
    (handles : Rows) (handleMap : gmap Z string)
  : (option (gmap Z string) * option error) + gmap Z string :=
  match Scan [ptrInt; ptrString] handles with
  | inl err => inl (None, Some (Wrap err "read handle"))
  | inr (handleID, (handle, _)) =>
      if decide (is_Some (handleMap !! (handleID : Z))) then
        inl (None, Some (New (duplicateHandleMsg handleID)))
      else inr (<[(handleID : Z) := resolveHandle contactMap handle]> handleMap)
  end.

(** One round of the loop of [GetChats], on the cursor and the chats
    collected so far. *)
Definition chatsBody (contactMap : gmap string Card)
    (chatRows : Rows) (chats : list Chat)
  : (option (list Chat) * option error) + list Chat :=
  match Scan [ptrInt; ptrString; ptrString; ptrString] chatRows with
  | inl err => inl (None, Some (Wrap err "read chat"))
  | inr (id, (guid, (name, (displayName, _)))) =>
      inr (chats ++ [resolveChat contactMap (id, guid, name, displayName)])
  end.

(** One round of the loop of [GetMessageIDs]. *)
Definition messageIDsBody (chatID : Z) (rows : Rows) (messageIDs : list Z)
  : (option (list Z) * option error) + list Z :=
  match Scan [ptrInt] rows with
  | inl err =>
      inl (None, Some (Wrap err ("read message ID for chat ID " +:+ itoa chatID)))
  | inr (messageID, _) => inr (messageIDs ++ [messageID])
  end.
End decoding.

(** ** A concrete store for the examples *)

(** Columns that are integers, texts or NULL, converted strictly. *)
Inductive cell : Type := Integer (n : Z) | Text (s : string) | Null.

Definition cellDriver : Driver :=
  {| Value := cell;
     convertAssignInt := λ c,
       match c with
       | Integer n => inr n
       | _ => inl (New "converting to int is unsupported")
       end;
     convertAssignString := λ c,
       match c with
       | Text s => inr s
       | _ => inl (New "converting to string is unsupported")
       end |}.

Definition flatSemver : Semver := {| comparePrerelease := λ _ _, 0%Z |}.

(** A store that answers one query with the given rows and every other
    query with no rows. *)
Definition storeWith (query : string) (rws : list (list cell)) : @sql.DB cellDriver :=
  @mkDB cellDriver (λ q,
    inr (@mkResultSet cellDriver (if String.eqb q query then rws else []) None)).

Definition emptyStore : @sql.DB cellDriver :=
  @mkDB cellDriver (λ _, inr (@mkResultSet cellDriver [] None)).

Definition alice : Card :=
  {| CardName := Some {| FamilyName := "Liddell"; GivenName := "Alice";
                         AdditionalName := ""; HonorificPrefix := "";
                         HonorificSuffix := "" |};
     PreferredValue := λ k, if String.eqb k "FN" then "Alice Liddell" else "" |}.

Definition smiths : Card :=
  {| CardName := None;
     PreferredValue := λ k, if String.eqb k "FN" then "The Smiths" else "" |}.

(* ===================================================================== *)
(** * The cursor and the loop *)
(* ===================================================================== *)

(** On a cursor that holds a fetched row, [Scan] is the decoding of that
    row. *)
Lemma Scan_fetched `{Driver} ds r rest e :
  Scan ds {| pending := rest; atEnd := e; lastcols := Some r;
             closed := false; lasterr := None |} = scanRow ds r.
Proof. reflexivity. Qed.

(** [forRows] is the loop [for rows.Next() { body }]: one round per
    successful [Next]. *)
Lemma forRows_Next `{Driver} {R S : Type} (body : Rows → S → R + S) rs locals :
  closed rs = false →
  forRows body rs locals =
    match Next rs with
    | (true, rs') =>
        match body rs' locals with
        | inl ret => inl ret
        | inr locals' => forRows body rs' locals'
        end
    | (false, _) => inr locals
    end.
Proof.
  intros Hopen. unfold forRows, Next. rewrite Hopen.
  destruct (pending rs) as [|r rest]; reflexivity.
Qed.

(** A fresh cursor is open. *)
Lemma open_not_closed `{Driver} r : closed (open r) = false.
Proof. reflexivity. Qed.

(* ===================================================================== *)
(** * The timestamp formula *)
(* ===================================================================== *)

Lemma compareSegment_cases (v o : Z) :
  (v < o ∧ compareSegment v o = -1)%Z ∨
  (v = o ∧ compareSegment v o = 0)%Z ∨
  (o < v ∧ compareSegment v o = 1)%Z.
Proof.
  unfold compareSegment.
  destruct (Z.ltb_spec v o); [left; done|].
  destruct (Z.ltb_spec o v); [right; right; done|].
  right; left; split; [lia | done].
Qed.

(** Against the threshold, [LessThan] is semantic-version precedence; the
    order of two pre-release tags plays no part. *)
Lemma LessThan_modern `{Semver} (v : Version) :
  LessThan v _modernVersion = true ↔ below_10_13 v.
Proof.
  unfold LessThan, Compare, below_10_13. cbn [major minor patch pre _modernVersion].
  destruct (compareSegment_cases (major v) 10) as [[? ->]|[[? ->]|[? ->]]];
    cbn; [split; [auto | reflexivity] | | split; [discriminate | lia]].
  destruct (compareSegment_cases (minor v) 13) as [[? ->]|[[? ->]|[? ->]]];
    cbn; [split; [auto | reflexivity] | | split; [discriminate | lia]].
  destruct (compareSegment_cases (patch v) 0) as [[? ->]|[[? ->]|[? ->]]];
    cbn; [split; [intros _; right; right; left; done | reflexivity] |
          | split; [discriminate | lia]].
  destruct (String.eqb_spec (pre v) "") as [Hpre|Hpre]; cbn.
  - split; [discriminate |]. intros [?|[?|[?|(_ & _ & _ & ?)]]]; [lia.. | done].
  - split; [intros _; do 3 right; done | reflexivity].
Qed.

Lemma formulaOfVersion_cases `{Semver} (macOSVersion : option Version) :
  (∃ v, macOSVersion = Some v ∧ below_10_13 v ∧
        formulaOfVersion macOSVersion = _datetimeFormulaLegacy) ∨
  ((macOSVersion = None ∨ ∃ v, macOSVersion = Some v ∧ ¬ below_10_13 v) ∧
   formulaOfVersion macOSVersion = _datetimeFormula).
Proof.
  destruct macOSVersion as [v|]; cbn; [|right; auto].
  destruct (LessThan v _modernVersion) eqn:E.
  - left. exists v. rewrite <- LessThan_modern. auto.
  - right. split; [|done]. right. exists v. split; [done|].
    rewrite <- LessThan_modern, E. discriminate.
Qed.

(** What [getDatetimeFormula] returns, and that it leaves [*d] alone. *)
Lemma getDatetimeFormula_run `{Driver} `{Semver} (d : chatDB) macOSVersion :
  getDatetimeFormula macOSVersion d =
    (if negb (String.eqb (datetimeFormula d) "") then datetimeFormula d
     else formulaOfVersion macOSVersion, d).
Proof.
  unfold getDatetimeFormula, formulaOfVersion, mbind, M_bind, this, mret, M_ret.
  destruct (negb _); [done|].
  destruct macOSVersion as [v|]; [|done].
  destruct (LessThan v _modernVersion); done.
Qed.

(** C2: the formula is the override when one is set; otherwise the legacy
    formula when a version marker is supplied and precedes 10.13; otherwise
    (a marker at or above 10.13, or no marker) the modern formula. *)
Theorem getDatetimeFormula_selection `{Driver} `{Semver}
    (d : chatDB) (macOSVersion : option Version) :
  let formula := (getDatetimeFormula macOSVersion d).1 in
  (datetimeFormula d ≠ "" → formula = datetimeFormula d) ∧
  (datetimeFormula d = "" →
     ∀ v, macOSVersion = Some v → below_10_13 v →
          formula = _datetimeFormulaLegacy) ∧
  (datetimeFormula d = "" →
     (macOSVersion = None ∨ ∃ v, macOSVersion = Some v ∧ ¬ below_10_13 v) →
     formula = _datetimeFormula).
Proof.
  cbn zeta. rewrite getDatetimeFormula_run. cbn [fst].
  destruct (String.eqb_spec (datetimeFormula d) "") as [E|E]; cbn [negb].
  - split; [done|].
    destruct (formulaOfVersion_cases macOSVersion)
      as [(v & -> & Hv & ->)|[Hv ->]].
    + split; [done|]. intros _ [?|(v' & [= <-] & ?)]; done.
    + split; [|done]. intros _ v -> Hb.
      destruct Hv as [?|(v' & [= <-] & ?)]; done.
  - split; [done|]. split; intros; done.
Qed.

Lemma getDatetimeFormula_selection_witness :
  let v1012 := {| major := 10; minor := 12; patch := 0; pre := ""; metadata := "" |} in
  let v1014 := {| major := 10; minor := 14; patch := 0; pre := ""; metadata := "" |} in
  let d := @NewChatDB cellDriver emptyStore "Me" in
  let o := @mkChatDB cellDriver emptyStore "date" "Me" in
  (@getDatetimeFormula cellDriver flatSemver (Some v1012) o).1 = "date" ∧
  (@getDatetimeFormula cellDriver flatSemver (Some v1012) d).1 = _datetimeFormulaLegacy ∧
  (@getDatetimeFormula cellDriver flatSemver (Some v1014) d).1 = _datetimeFormula ∧
  (@getDatetimeFormula cellDriver flatSemver None d).1 = _datetimeFormula.
Proof.
  intros v1012 v1014 d o.
  split; [|split; [|split]].
  - apply (@getDatetimeFormula_selection cellDriver flatSemver o (Some v1012)).
    discriminate.
  - apply (proj1 (proj2 (@getDatetimeFormula_selection cellDriver flatSemver
                           d (Some v1012))) eq_refl v1012 eq_refl).
    right; left. cbn. lia.
  - apply (proj2 (proj2 (@getDatetimeFormula_selection cellDriver flatSemver
                           d (Some v1014))) eq_refl).
    right. exists v1014. split; [reflexivity|].
    unfold below_10_13; cbn. intros [?|[?|[?|(_ & ? & _)]]]; lia.
  - apply (proj2 (proj2 (@getDatetimeFormula_selection cellDriver flatSemver
                           d None)) eq_refl).
    left; reflexivity.
Defined.

(* ===================================================================== *)
(** * Rendering one message *)
(* ===================================================================== *)

(** [GetMessage] in closed form: the formula is selected, one query is sent,
    and the reply is read off the first two rows of the answer; [*d] is left
    as it was. *)
Lemma GetMessage_run `{Driver} `{Semver} (d : chatDB) messageID
    (handleMap : gmap Z string) macOSVersion :
  GetMessage messageID handleMap macOSVersion d =
    (match exec (DB d)
             (messageQuery (getDatetimeFormula macOSVersion d).1 messageID) with
     | inl err =>
         ("", Some (Wrap err ("query message table for ID " +:+ itoa messageID)))
     | inr rs =>
         match rows rs with
         | [] =>
             ("", Some (Wrap (default errRowsClosed (failure rs))
                             ("read data for message ID " +:+ itoa messageID)))
         | cols :: more =>
             match scanRow [ptrInt; ptrInt; ptrString; ptrString] cols with
             | inl err =>
                 ("", Some (Wrap err ("read data for message ID " +:+
                                      itoa messageID)))
             | inr (fromMe, (handleID, (text, (date, _)))) =>
                 match more with
                 | _ :: _ => ("", Some (New (duplicateMessageMsg messageID)))
                 | [] =>
                     (line date
                        (if (fromMe =? 1)%Z then selfHandle d
                         else default "" (handleMap !! (handleID : Z)))
                        text, None)
                 end
             end
         end
     end, d).
Proof.
  unfold GetMessage, mbind, M_bind. rewrite getDatetimeFormula_run.
  unfold this, mret, M_ret, Query, messageQuery, duplicateMessageMsg, line.
  cbn [fst].
  destruct (exec (DB d) _) as [err|rs]; [reflexivity|].
  unfold open, Next. cbn [closed pending].
  destruct (rows rs) as [|cols more].
  - unfold Scan. cbn [lasterr closed]. destruct (failure rs); reflexivity.
  - rewrite Scan_fetched.
    destruct (scanRow _ cols) as [err|(fromMe & handleID & text & date & [])];
      [reflexivity|].
    cbn [closed pending]. destruct more; reflexivity.
Qed.

Lemma GetMessage_receiver `{Driver} `{Semver} (d : chatDB) messageID
    (handleMap : gmap Z string) macOSVersion :
  (GetMessage messageID handleMap macOSVersion d).2 = d.
Proof. rewrite GetMessage_run. reflexivity. Qed.

(** No call on the interface changes the struct behind it. *)
Lemma invoke_receiver `{Driver} `{Semver} (c : call) (d : chatDB) :
  (invoke c d).2 = d.
Proof.
  destruct c; cbn [invoke snd]; try reflexivity.
  rewrite GetMessage_run. reflexivity.
Qed.

Lemma invokeAll_receiver `{Driver} `{Semver} (cs : list call) (d : chatDB) :
  (invokeAll cs d).2 = d.
Proof.
  induction cs as [|c cs IH]; [reflexivity|]. cbn [invokeAll].
  pose proof (invoke_receiver c d) as Hc.
  destruct (invoke c d) as [r d1]. cbn [snd] in Hc. subst d1.
  destruct (invokeAll cs d) as [rs d2]. cbn [snd] in IH |- *. exact IH.
Qed.

Lemma read_annotation_kind cause what :
  error_kind (Wrap cause ("read " +:+ what)) = Some ReadError.
Proof. reflexivity. Qed.

Lemma duplicateMessageMsg_kind messageID :
  error_kind (New (duplicateMessageMsg messageID)) = Some DuplicateMessageError.
Proof. reflexivity. Qed.

Lemma duplicateHandleMsg_kind handleID :
  error_kind (New (duplicateHandleMsg handleID)) = Some DuplicateHandleError.
Proof. reflexivity. Qed.

(** No error is of the kind NotFoundError. *)
Lemma error_kind_never_not_found (e : error) :
  error_kind e ≠ Some NotFoundError.
Proof.
  destruct e as [msg|cause msg|col cause]; unfold error_kind;
    repeat match goal with |- context [if ?b then _ else _] => destruct b end;
    discriminate.
Qed.

(** C1, as the code has it: when the query for a message identifier yields no
    row, [GetMessage] returns the empty string and the failure of [Scan] on
    the exhausted cursor ("sql: Rows are closed", or the error with which the
    driver stopped), wrapped with "read data for message ID <id>"; by its
    annotation this is a ReadError, the kind a row that fails to decode
    gets. *)
Theorem GetMessage_zero_rows `{Driver} `{Semver} (d : chatDB) messageID
    (handleMap : gmap Z string) macOSVersion rs :
  exec (DB d) (messageQuery (getDatetimeFormula macOSVersion d).1 messageID)
    = inr rs →
  rows rs = [] →
  let cause := default errRowsClosed (failure rs) in
  let err := Wrap cause ("read data for message ID " +:+ itoa messageID) in
  (GetMessage messageID handleMap macOSVersion d).1 = ("", Some err) ∧
  error_kind err = Some ReadError.
Proof.
  intros Hexec Hrows. cbn zeta.
  rewrite GetMessage_run, Hexec, Hrows. split; reflexivity.
Qed.

Lemma GetMessage_zero_rows_witness :
  (@GetMessage cellDriver flatSemver 7 ∅ None (NewChatDB emptyStore "Me")).1
    = ("", Some (Wrap errRowsClosed "read data for message ID 7")).
Proof.
  apply (@GetMessage_zero_rows cellDriver flatSemver (NewChatDB emptyStore "Me")
           7 ∅ None (@mkResultSet cellDriver [] None));
    reflexivity.
Defined.

(** C1 as the specification words it fails: on a store without any message
    the error for identifier 7 is the wrapped read failure, a ReadError and
    not a NotFoundError; a store whose only row for 7 cannot be decoded
    answers with the same annotation. *)
Lemma GetMessage_zero_rows_not_NotFoundError :
  let d := @NewChatDB cellDriver emptyStore "Me" in
  let r := (@GetMessage cellDriver flatSemver 7 ∅ None d).1 in
  let undecodable :=
    @NewChatDB cellDriver
      (storeWith (messageQuery _datetimeFormula 7)
                 [[Null; Integer 3; Text "hi"; Text "2020-01-01 10:00:00"]]) "Me" in
  (∀ formula, exec (DB d) (messageQuery formula 7)
              = inr (@mkResultSet cellDriver [] None)) ∧
  r = ("", Some (Wrap errRowsClosed "read data for message ID 7")) ∧
  error_kind <$> r.2 = Some (Some ReadError) ∧
  ¬ (∃ e, r.2 = Some e ∧ error_kind e = Some NotFoundError) ∧
  (@GetMessage cellDriver flatSemver 7 ∅ None undecodable).1
    = ("", Some (Wrap (ScanError 0 (New "converting to int is unsupported"))
                      "read data for message ID 7")).
Proof.
  cbn zeta. split; [reflexivity|]. split; [reflexivity|]. split; [reflexivity|].
  split; [|reflexivity].
  intros (e & He & Hk). cbn in He. injection He as <-. discriminate Hk.
Qed.

(** C5: the speaker of a rendered message is the self label when the
    is-from-me column is 1, whatever the handle map holds; otherwise it is
    the handle map's entry for the handle identifier, and the empty string,
    without an error, when the map has none. *)
Theorem GetMessage_speaker `{Driver} `{Semver} (d : chatDB) messageID
    (handleMap : gmap Z string) macOSVersion rs cols
    (fromMe handleID : Z) (text date : string) :
  exec (DB d) (messageQuery (getDatetimeFormula macOSVersion d).1 messageID)
    = inr rs →
  rows rs = [cols] →
  scanRow [ptrInt; ptrInt; ptrString; ptrString] cols
    = inr (fromMe, (handleID, (text, (date, tt)))) →
  ∃ speaker,
    (GetMessage messageID handleMap macOSVersion d).1
      = (line date speaker text, None) ∧
    (fromMe = 1%Z → speaker = selfHandle d) ∧
    (fromMe ≠ 1%Z → ∀ name, handleMap !! handleID = Some name → speaker = name) ∧
    (fromMe ≠ 1%Z → handleMap !! handleID = None → speaker = "").
Proof.
  intros Hexec Hrows Hscan.
  rewrite GetMessage_run, Hexec, Hrows, Hscan. cbn [fst].
  eexists. split; [reflexivity|].
  destruct (Z.eqb_spec fromMe 1) as [E|E].
  - split; [done|]. split; intros; done.
  - split; [done|]. split.
    + intros _ name ->. reflexivity.
    + intros _ ->. reflexivity.
Qed.

Lemma GetMessage_speaker_witness :
  let q := messageQuery _datetimeFormula 7 in
  let mine := storeWith q [[Integer 1; Integer 3; Text "hi"; Text "2020-01-01 10:00:00"]] in
  let theirs := storeWith q [[Integer 0; Integer 3; Text "hi"; Text "2020-01-01 10:00:00"]] in
  (@GetMessage cellDriver flatSemver 7 {[3%Z := "Bob"]} None (NewChatDB mine "Me")).1
    = (line "2020-01-01 10:00:00" "Me" "hi", None) ∧
  (@GetMessage cellDriver flatSemver 7 {[3%Z := "Bob"]} None (NewChatDB theirs "Me")).1
    = (line "2020-01-01 10:00:00" "Bob" "hi", None) ∧
  (@GetMessage cellDriver flatSemver 7 ∅ None (NewChatDB theirs "Me")).1
    = (line "2020-01-01 10:00:00" "" "hi", None).
Proof.
  intros q mine theirs.
  split; [|split].
  - destruct (@GetMessage_speaker cellDriver flatSemver (NewChatDB mine "Me")
                7 {[3%Z := "Bob"]} None
                (@mkResultSet cellDriver
                   [[Integer 1; Integer 3; Text "hi"; Text "2020-01-01 10:00:00"]] None)
                _ 1%Z 3%Z "hi" "2020-01-01 10:00:00" eq_refl eq_refl eq_refl)
      as (speaker & -> & Hself & _).
    rewrite (Hself eq_refl). reflexivity.
  - destruct (@GetMessage_speaker cellDriver flatSemver (NewChatDB theirs "Me")
                7 {[3%Z := "Bob"]} None
                (@mkResultSet cellDriver
                   [[Integer 0; Integer 3; Text "hi"; Text "2020-01-01 10:00:00"]] None)
                _ 0%Z 3%Z "hi" "2020-01-01 10:00:00" eq_refl eq_refl eq_refl)
      as (speaker & -> & _ & Hmap & _).
    rewrite (Hmap ltac:(discriminate) "Bob" eq_refl). reflexivity.
  - destruct (@GetMessage_speaker cellDriver flatSemver (NewChatDB theirs "Me")
                7 ∅ None
                (@mkResultSet cellDriver
                   [[Integer 0; Integer 3; Text "hi"; Text "2020-01-01 10:00:00"]] None)
                _ 0%Z 3%Z "hi" "2020-01-01 10:00:00" eq_refl eq_refl eq_refl)
      as (speaker & -> & _ & _ & Habsent).
    rewrite (Habsent ltac:(discriminate) eq_refl). reflexivity.
Defined.

(** C6: when the query for a message identifier yields more than one row (the
    first of which decodes), [GetMessage] returns the empty string and the
    uniqueness error that names the identifier. *)
Theorem GetMessage_duplicate `{Driver} `{Semver} (d : chatDB) messageID
    (handleMap : gmap Z string) macOSVersion rs cols cols' more x :
  exec (DB d) (messageQuery (getDatetimeFormula macOSVersion d).1 messageID)
    = inr rs →
  rows rs = cols :: cols' :: more →
  scanRow [ptrInt; ptrInt; ptrString; ptrString] cols = inr x →
  (GetMessage messageID handleMap macOSVersion d).1
    = ("", Some (New (duplicateMessageMsg messageID))) ∧
  error_kind (New (duplicateMessageMsg messageID)) = Some DuplicateMessageError.
Proof.
  intros Hexec Hrows Hscan.
  rewrite GetMessage_run, Hexec, Hrows, Hscan.
  destruct x as (fromMe & handleID & text & date & []).
  split; reflexivity.
Qed.

Lemma GetMessage_duplicate_witness :
  let row := [Integer 1; Integer 3; Text "hi"; Text "2020-01-01 10:00:00"] in
  let d := NewChatDB (storeWith (messageQuery _datetimeFormula 7) [row; row]) "Me" in
  (@GetMessage cellDriver flatSemver 7 ∅ None d).1
    = ("", Some (New (duplicateMessageMsg 7))).
Proof.
  intros row d.
  apply (@GetMessage_duplicate cellDriver flatSemver d 7 ∅ None
           (@mkResultSet cellDriver [row; row] None) row row []
           (1%Z, (3%Z, ("hi", ("2020-01-01 10:00:00", tt)))));
    reflexivity.
Defined.

(* ===================================================================== *)
(** * The message index *)
(* ===================================================================== *)

Lemma GetMessageIDs_loop `{Driver} chatID e rws ids acc :
  joinRows rws ids →
  forNext (λ rows (messageIDs : list Z),
     match Scan [ptrInt] rows with
     | inl err =>
         inl (None : option (list Z),
              Some (Wrap err ("read message ID for chat ID " +:+ itoa chatID)))
     | inr (messageID, _) => inr (messageIDs ++ [messageID])
     end) e rws acc = inr (acc ++ ids).
Proof.
  intros Hrows. revert acc.
  induction Hrows as [|cols x rws ids Hscan _ IH]; intros acc; cbn [forNext].
  - by rewrite app_nil_r.
  - rewrite Scan_fetched, Hscan, IH, <- app_assoc. reflexivity.
Qed.

(** C8: a chat without rows in the join table gets the empty sequence and no
    error; and in general the identifiers come back in the order in which the
    store yields the rows. *)
Theorem GetMessageIDs_order `{Driver} (d : chatDB) chatID rs :
  exec (DB d) (messageIDsQuery chatID) = inr rs →
  (rows rs = [] → GetMessageIDs d chatID = (Some [], None)) ∧
  (∀ ids, joinRows (rows rs) ids → GetMessageIDs d chatID = (Some ids, None)).
Proof.
  intros Hexec.
  assert (∀ ids, joinRows (rows rs) ids →
                 GetMessageIDs d chatID = (Some ids, None)) as Hgen.
  { intros ids Hrows. unfold GetMessageIDs, Query.
    fold (messageIDsQuery chatID). rewrite Hexec.
    unfold forRows, open. cbn [atEnd pending].
    rewrite (GetMessageIDs_loop chatID (failure rs) (rows rs) ids []);
      [reflexivity | done]. }
  split; [|done].
  intros Hnil. apply Hgen. rewrite Hnil. constructor.
Qed.

Lemma GetMessageIDs_order_witness :
  (@GetMessageIDs cellDriver (NewChatDB emptyStore "Me") 4 = (Some [], None)) ∧
  (@GetMessageIDs cellDriver
     (NewChatDB (storeWith (messageIDsQuery 4) [[Integer 9]; [Integer 2]; [Integer 5]])
                "Me") 4
   = (Some [9; 2; 5]%Z, None)).
Proof.
  split.
  - apply (proj1 (@GetMessageIDs_order cellDriver (NewChatDB emptyStore "Me") 4
                    (@mkResultSet cellDriver [] None) eq_refl)).
    reflexivity.
  - apply (proj2 (@GetMessageIDs_order cellDriver
                    (NewChatDB (storeWith (messageIDsQuery 4)
                                  [[Integer 9]; [Integer 2]; [Integer 5]]) "Me") 4
                    (@mkResultSet cellDriver
                       [[Integer 9]; [Integer 2]; [Integer 5]] None) eq_refl)).
    repeat constructor.
Defined.

(* ===================================================================== *)
(** * The chat enumerator *)
(* ===================================================================== *)

Lemma GetChats_loop `{Driver} (contactMap : gmap string Card) e rws xs acc :
  chatRows rws xs →
  forNext (λ chatRows (chats : list Chat),
     match Scan [ptrInt; ptrString; ptrString; ptrString] chatRows with
     | inl err => inl (None : option (list Chat), Some (Wrap err "read chat"))
     | inr (id, (guid, (name, (displayName, _)))) =>
         let displayName :=
           if String.eqb displayName "" then name else displayName in
         let displayName :=
           match contactMap !! displayName with
           | Some card =>
               let contactName := PreferredValue card FieldFormattedName in
               if negb (String.eqb contactName "")
               then contactName else displayName
           | None => displayName
           end in
         inr (chats ++ [ {| ID := id; GUID := guid;
                            DisplayName := displayName |} ])
     end) e rws acc = inr (acc ++ (resolveChat contactMap <$> xs)).
Proof.
  intros Hrows. revert acc.
  induction Hrows as [|cols x rws xs Hscan _ IH]; intros acc; cbn [forNext].
  - by rewrite app_nil_r.
  - rewrite Scan_fetched, Hscan. destruct x as [[[id guid] name] displayName].
    cbn [fst snd]. rewrite IH, fmap_cons, <- app_assoc. reflexivity.
Qed.

Lemma GetChats_run `{Driver} (d : chatDB) contactMap rs xs :
  exec (DB d) chatQuery = inr rs →
  chatRows (rows rs) xs →
  GetChats d contactMap = (Some (resolveChat contactMap <$> xs), None).
Proof.
  intros Hexec Hrows. unfold GetChats, Query. fold chatQuery. rewrite Hexec.
  unfold forRows, open. cbn [atEnd pending].
  exact (f_equal (λ r, match r with
                       | inl ret => ret
                       | inr chats => (Some chats, None)
                       end)
           (GetChats_loop contactMap (failure rs) (rows rs) xs [] Hrows)).
Qed.

(** C4: every chat row yields one [Chat], in order, whose display name is the
    display-name column when that is not empty and the chat identifier
    otherwise, unless the contact map has a card under that very name with a
    non-empty preferred formatted name, which then replaces it. *)
Theorem GetChats_display_name `{Driver} (d : chatDB)
    (contactMap : gmap string Card) rs xs :
  exec (DB d) chatQuery = inr rs →
  chatRows (rows rs) xs →
  ∃ chats,
    GetChats d contactMap = (Some chats, None) ∧
    length chats = length xs ∧
    ∀ i id guid name displayName,
      xs !! i = Some (id, guid, name, displayName) →
      ∃ base resolved,
        chats !! i = Some {| ID := id; GUID := guid; DisplayName := resolved |} ∧
        (displayName ≠ "" → base = displayName) ∧
        (displayName = "" → base = name) ∧
        (∀ card, contactMap !! base = Some card →
                 PreferredValue card FieldFormattedName ≠ "" →
                 resolved = PreferredValue card FieldFormattedName) ∧
        (∀ card, contactMap !! base = Some card →
                 PreferredValue card FieldFormattedName = "" →
                 resolved = base) ∧
        (contactMap !! base = None → resolved = base).
Proof.
  intros Hexec Hrows.
  exists (resolveChat contactMap <$> xs).
  split; [by apply GetChats_run with rs|].
  split; [by rewrite length_fmap|].
  intros i id guid name displayName Hi.
  exists (if String.eqb displayName "" then name else displayName).
  eexists. split.
  { rewrite list_lookup_fmap, Hi. reflexivity. }
  split; [by destruct (String.eqb_spec displayName "")|].
  split; [by destruct (String.eqb_spec displayName "")|].
  set (base := if String.eqb displayName "" then name else displayName).
  destruct (contactMap !! base) as [card|]; [|done].
  cbn zeta.
  destruct (String.eqb_spec (PreferredValue card FieldFormattedName) "") as [E|E];
    cbn [negb].
  - split; [|split; [|done]]; intros ? [= <-] ?; done.
  - split; [|split; [|done]]; intros ? [= <-] ?; done.
Qed.

Lemma GetChats_display_name_witness :
  let rws := [[Integer 1; Text "g1"; Text "chat123"; Text ""];
              [Integer 2; Text "g2"; Text "chat456"; Text "Family"]] in
  ∃ chats,
    @GetChats cellDriver (NewChatDB (storeWith chatQuery rws) "Me")
      {["Family" := smiths]} = (Some chats, None) ∧
    chats !! 0%nat
      = Some {| ID := 1; GUID := "g1"; DisplayName := "chat123" |} ∧
    chats !! 1%nat
      = Some {| ID := 2; GUID := "g2"; DisplayName := "The Smiths" |}.
Proof.
  intros rws.
  destruct (@GetChats_display_name cellDriver
              (NewChatDB (storeWith chatQuery rws) "Me") {["Family" := smiths]}
              (@mkResultSet cellDriver rws None)
              [(1%Z, "g1", "chat123", ""); (2%Z, "g2", "chat456", "Family")]
              eq_refl ltac:(repeat constructor))
    as (chats & Hrun & _ & Hnames).
  exists chats. split; [exact Hrun|]. split.
  - destruct (Hnames 0%nat 1%Z "g1" "chat123" "" eq_refl)
      as (base & resolved & -> & _ & Hbase & _ & _ & Hnone).
    rewrite (Hbase eq_refl) in Hnone. rewrite (Hnone eq_refl). reflexivity.
  - destruct (Hnames 1%nat 2%Z "g2" "chat456" "Family" eq_refl)
      as (base & resolved & -> & Hbase & _ & Hcard & _).
    rewrite (Hbase ltac:(discriminate)) in Hcard.
    rewrite (Hcard smiths eq_refl ltac:(discriminate)). reflexivity.
Defined.

(* ===================================================================== *)
(** * The handle resolver *)
(* ===================================================================== *)

Lemma GetHandleMap_run `{Driver} (d : chatDB) (contactMap : gmap string Card) :
  GetHandleMap d contactMap =
    match exec (DB d) handleQuery with
    | inl err => (None, Some (Wrap err "get handles from DB"))
    | inr rs =>
        match forNext (handlesBody contactMap) (failure rs) (rows rs) ∅ with
        | inl ret => ret
        | inr handleMap => (Some handleMap, None)
        end
    end.
Proof.
  unfold GetHandleMap, Query. fold handleQuery.
  destruct (exec (DB d) handleQuery) as [err|rs]; reflexivity.
Qed.

(** Rows with pairwise distinct identifiers, none of them in the map yet,
    are all inserted. *)
Lemma handles_loop_distinct `{Driver} (contactMap : gmap string Card)
    e rws (xs : list (Z * string)) (acc : gmap Z string) :
  handleRows rws xs →
  NoDup xs.*1 →
  (∀ handleID, handleID ∈ xs.*1 → acc !! handleID = None) →
  forNext (handlesBody contactMap) e rws acc =
    inr (list_to_map (prod_map id (resolveHandle contactMap) <$> xs) ∪ acc).
Proof.
  intros Hrows. revert acc.
  induction Hrows as [|cols [handleID handle] rws xs Hscan _ IH];
    intros acc Hnd Hfresh; cbn [forNext].
  - cbn. by rewrite (left_id_L ∅ (∪)).
  - unfold handlesBody at 1. rewrite Scan_fetched, Hscan. cbn [fst snd].
    rewrite fmap_cons in Hnd. apply NoDup_cons in Hnd as [Hnotin Hnd].
    rewrite decide_False; last first.
    { rewrite (Hfresh handleID); [by intros [? ?]|]. rewrite fmap_cons. left. }
    rewrite IH; [|done|].
    + f_equal. rewrite fmap_cons. cbn [prod_map fst snd list_to_map foldr id].
      rewrite <- insert_union_l, <- insert_union_r; [done|].
      apply not_elem_of_list_to_map_1.
      rewrite <- list_fmap_compose.
      by erewrite list_fmap_ext; [exact Hnotin|].
    + intros k Hk. rewrite lookup_insert_ne; [|by intros ->].
      apply Hfresh. rewrite fmap_cons. by right.
Qed.

(** The first row whose identifier has been seen stops the loop. *)
Lemma handles_loop_duplicate `{Driver} (contactMap : gmap string Card)
    e (pre : list (Z * string)) handleID handle suf :
  ∀ rws (acc : gmap Z string),
  handleRows rws (pre ++ (handleID, handle) :: suf) →
  NoDup pre.*1 →
  (∀ k, k ∈ pre.*1 → acc !! k = None) →
  handleID ∈ pre.*1 ∨ is_Some (acc !! handleID) →
  forNext (handlesBody contactMap) e rws acc =
    inl (None, Some (New (duplicateHandleMsg handleID))).
Proof.
  induction pre as [|[k a] pre IH]; intros rws acc Hrows Hnd Hfresh Hseen.
  - apply Forall2_cons_inv_r in Hrows as (cols & rws' & Hscan & _ & ->).
    cbn [forNext]. unfold handlesBody at 1. rewrite Scan_fetched, Hscan.
    cbn [fst snd]. destruct Hseen as [Hin|Hsome]; [by apply elem_of_nil in Hin|].
    by rewrite decide_True.
  - rewrite <- app_comm_cons in Hrows.
    apply Forall2_cons_inv_r in Hrows as (cols & rws' & Hscan & Hrows & ->).
    cbn [forNext]. unfold handlesBody at 1. rewrite Scan_fetched, Hscan.
    cbn [fst snd].
    rewrite fmap_cons in Hnd. apply NoDup_cons in Hnd as [Hnotin Hnd].
    assert (acc !! k = None) as Hk by (apply Hfresh; rewrite fmap_cons; left).
    rewrite decide_False; [|by rewrite Hk; intros [? ?]].
    apply IH; [done..| |].
    + intros k' Hk'. rewrite lookup_insert_ne; [|by intros ->].
      apply Hfresh. rewrite fmap_cons. by right.
    + destruct (decide (handleID = k)) as [->|Hne].
      * right. rewrite lookup_insert_eq. by eexists.
      * rewrite lookup_insert_ne; [|done].
        destruct Hseen as [Hin|?]; [|by right].
        rewrite fmap_cons in Hin. apply elem_of_cons in Hin as [?|?]; [done|by left].
Qed.

(** A list with a repeated identifier splits at the first row whose
    identifier occurred before. *)
Lemma first_repeat (xs : list (Z * string)) :
  ¬ NoDup xs.*1 →
  ∃ pre handleID handle suf,
    xs = pre ++ (handleID, handle) :: suf ∧ NoDup pre.*1 ∧ handleID ∈ pre.*1.
Proof.
  induction xs as [|[k a] xs IH] using rev_ind; intros Hdup.
  - destruct Hdup. constructor.
  - destruct (decide (NoDup xs.*1)) as [Hnd|Hnd].
    + exists xs, k, a, []. split; [done|]. split; [done|].
      destruct (decide (k ∈ xs.*1)) as [|Hnotin]; [done|].
      destruct Hdup. rewrite fmap_app. apply NoDup_app. split; [done|].
      split; [|apply NoDup_singleton].
      intros x Hx [->|Hx']%elem_of_cons; [done|by apply elem_of_nil in Hx'].
    + destruct (IH Hnd) as (pre & handleID & handle & suf & -> & ? & ?).
      exists pre, handleID, handle, (suf ++ [(k, a)]).
      by rewrite <- app_assoc.
Qed.

Lemma GetHandleMap_distinct `{Driver} (d : chatDB)
    (contactMap : gmap string Card) rs (xs : list (Z * string)) :
  exec (DB d) handleQuery = inr rs →
  handleRows (rows rs) xs →
  NoDup xs.*1 →
  GetHandleMap d contactMap =
    (Some (list_to_map (prod_map id (resolveHandle contactMap) <$> xs)), None).
Proof.
  intros Hexec Hrows Hnd. rewrite GetHandleMap_run, Hexec.
  rewrite (handles_loop_distinct contactMap (failure rs) (rows rs) xs ∅);
    [|done..].
  by rewrite (right_id_L ∅ (∪)).
Qed.

Lemma resolved_keys (contactMap : gmap string Card) (xs : list (Z * string)) :
  (prod_map id (resolveHandle contactMap) <$> xs).*1 = xs.*1.
Proof. rewrite <- list_fmap_compose. by apply list_fmap_ext. Qed.

(** C3: when two handle rows carry the same identifier, [GetHandleMap]
    returns a nil map and the uniqueness error naming the identifier of the
    first row that repeats an earlier one; when the identifiers are pairwise
    distinct, it returns a map with exactly one entry per identifier. *)
Theorem GetHandleMap_uniqueness `{Driver} (d : chatDB)
    (contactMap : gmap string Card) rs (xs : list (Z * string)) :
  exec (DB d) handleQuery = inr rs →
  handleRows (rows rs) xs →
  (¬ NoDup xs.*1 →
     ∃ pre handleID handle suf,
       xs = pre ++ (handleID, handle) :: suf ∧
       NoDup pre.*1 ∧ handleID ∈ pre.*1 ∧
       GetHandleMap d contactMap
         = (None, Some (New (duplicateHandleMsg handleID))) ∧
       error_kind (New (duplicateHandleMsg handleID))
         = Some DuplicateHandleError) ∧
  (NoDup xs.*1 →
     ∃ handleMap : gmap Z string,
       GetHandleMap d contactMap = (Some handleMap, None) ∧
       (∀ handleID, handleID ∈ xs.*1 ↔ is_Some (handleMap !! handleID)) ∧
       size handleMap = length xs).
Proof.
  intros Hexec Hrows. split.
  - intros Hdup.
    destruct (first_repeat xs Hdup) as (pre & handleID & handle & suf & -> & Hnd & Hin).
    exists pre, handleID, handle, suf.
    split; [done|]. split; [done|]. split; [done|]. split; [|reflexivity].
    rewrite GetHandleMap_run, Hexec.
    rewrite (handles_loop_duplicate contactMap (failure rs) pre handleID handle suf);
      [done..| |by left].
    intros k _. apply lookup_empty.
  - intros Hnd. eexists. split; [by apply GetHandleMap_distinct with rs|].
    split.
    + intros handleID. rewrite <- elem_of_dom, dom_list_to_map_L, resolved_keys.
      by rewrite elem_of_list_to_set.
    + rewrite map_size_list_to_map, length_fmap; [done|].
      by rewrite resolved_keys.
Qed.

Lemma GetHandleMap_uniqueness_witness :
  let twice := [[Integer 1; Text "+15551234567"]; [Integer 2; Text "bob@example.com"];
                [Integer 1; Text "carol@example.com"]] in
  let once := [[Integer 1; Text "+15551234567"]; [Integer 2; Text "bob@example.com"]] in
  (∃ handleID,
     @GetHandleMap cellDriver (NewChatDB (storeWith handleQuery twice) "Me") ∅
     = (None, Some (New (duplicateHandleMsg handleID)))) ∧
  (∃ handleMap : gmap Z string,
     @GetHandleMap cellDriver (NewChatDB (storeWith handleQuery once) "Me") ∅
     = (Some handleMap, None) ∧ size handleMap = 2%nat).
Proof.
  intros twice once. split.
  - destruct (proj1 (@GetHandleMap_uniqueness cellDriver
                       (NewChatDB (storeWith handleQuery twice) "Me") ∅
                       (@mkResultSet cellDriver twice None)
                       [(1%Z, "+15551234567"); (2%Z, "bob@example.com");
                        (1%Z, "carol@example.com")]
                       eq_refl ltac:(repeat constructor)))
      as (pre & handleID & handle & suf & _ & _ & _ & Hrun & _).
    + intros Hnd. apply NoDup_cons in Hnd as [Hnotin _].
      apply Hnotin. right. left.
    + exists handleID. exact Hrun.
  - destruct (proj2 (@GetHandleMap_uniqueness cellDriver
                       (NewChatDB (storeWith handleQuery once) "Me") ∅
                       (@mkResultSet cellDriver once None)
                       [(1%Z, "+15551234567"); (2%Z, "bob@example.com")]
                       eq_refl ltac:(repeat constructor)))
      as (handleMap & Hrun & _ & Hsize).
    + apply (bool_decide_unpack (NoDup [1%Z; 2%Z])). vm_compute. exact I.
    + exists handleMap. split; [exact Hrun | exact Hsize].
Defined.

(** C7: for every handle row (of a table with distinct identifiers) the map
    holds, under the row's identifier, the given name of the contact card
    filed under the row's address when there is such a card with a non-empty
    given name, and the address itself otherwise. *)
Theorem GetHandleMap_value `{Driver} (d : chatDB)
    (contactMap : gmap string Card) rs (xs : list (Z * string)) :
  exec (DB d) handleQuery = inr rs →
  handleRows (rows rs) xs →
  NoDup xs.*1 →
  ∃ handleMap : gmap Z string,
    GetHandleMap d contactMap = (Some handleMap, None) ∧
    ∀ handleID address, (handleID, address) ∈ xs →
      (∀ card name,
         contactMap !! address = Some card → CardName card = Some name →
         GivenName name ≠ "" →
         handleMap !! handleID = Some (GivenName name)) ∧
      (contactMap !! address = None ∨
       (∃ card, contactMap !! address = Some card ∧
                (CardName card = None ∨
                 ∃ name, CardName card = Some name ∧ GivenName name = "")) →
       handleMap !! handleID = Some address).
Proof.
  intros Hexec Hrows Hnd. eexists.
  split; [by apply GetHandleMap_distinct with rs|].
  intros handleID address Hin.
  assert (list_to_map (prod_map id (resolveHandle contactMap) <$> xs)
            !! handleID = Some (resolveHandle contactMap address)) as ->.
  { apply elem_of_list_to_map; [by rewrite resolved_keys|].
    apply list_elem_of_fmap. by exists (handleID, address). }
  unfold resolveHandle. split.
  - intros card name -> -> Hgiven.
    by destruct (String.eqb_spec (GivenName name) "").
  - intros [->|(card & -> & [->|(name & -> & ->)])]; reflexivity.
Qed.

Lemma GetHandleMap_value_witness :
  let rws := [[Integer 1; Text "+15551234567"]; [Integer 2; Text "bob@example.com"]] in
  ∃ handleMap : gmap Z string,
    @GetHandleMap cellDriver (NewChatDB (storeWith handleQuery rws) "Me")
      {["+15551234567" := alice]} = (Some handleMap, None) ∧
    handleMap !! 1%Z = Some "Alice" ∧
    handleMap !! 2%Z = Some "bob@example.com".
Proof.
  intros rws.
  destruct (@GetHandleMap_value cellDriver
              (NewChatDB (storeWith handleQuery rws) "Me")
              {["+15551234567" := alice]}
              (@mkResultSet cellDriver rws None)
              [(1%Z, "+15551234567"); (2%Z, "bob@example.com")]
              eq_refl ltac:(repeat constructor)
              ltac:(apply (bool_decide_unpack (NoDup [1%Z; 2%Z])); vm_compute; exact I))
    as (handleMap & Hrun & Hvalues).
  exists handleMap. split; [exact Hrun|]. split.
  - apply (proj1 (Hvalues 1%Z "+15551234567" ltac:(left)) alice
             {| FamilyName := "Liddell"; GivenName := "Alice";
                AdditionalName := ""; HonorificPrefix := "";
                HonorificSuffix := "" |} eq_refl eq_refl).
    discriminate.
  - apply (proj2 (Hvalues 2%Z "bob@example.com" ltac:(right; left))).
    left. reflexivity.
Defined.

(** C9: against an unchanged store [GetHandleMap] gives the same result every
    time: whatever calls are made on the interface in between, a later call
    with the same contact map returns what the earlier one returned; and the
    result depends on the store only through the answer to the handle
    query. *)
Theorem GetHandleMap_deterministic `{Driver} `{Semver} (d : chatDB)
    (contactMap : gmap string Card) :
  (∀ cs : list call,
     GetHandleMap (invokeAll cs d).2 contactMap = GetHandleMap d contactMap) ∧
  (∀ d' : chatDB,
     exec (DB d') handleQuery = exec (DB d) handleQuery →
     GetHandleMap d' contactMap = GetHandleMap d contactMap).
Proof.
  split.
  - intros cs. by rewrite invokeAll_receiver.
  - intros d' Hsame. by rewrite !GetHandleMap_run, Hsame.
Qed.

Lemma GetHandleMap_deterministic_witness :
  let rws := [[Integer 1; Text "+15551234567"]] in
  let d := @NewChatDB cellDriver (storeWith handleQuery rws) "Me" in
  let d' := @mkChatDB cellDriver (storeWith handleQuery rws) "date" "Myself" in
  @GetHandleMap cellDriver d' {["+15551234567" := alice]}
  = @GetHandleMap cellDriver d {["+15551234567" := alice]}.
Proof.
  intros rws d d'.
  apply (proj2 (@GetHandleMap_deterministic cellDriver flatSemver d
                  {["+15551234567" := alice]}) d').
  reflexivity.
Defined.

(* ===================================================================== *)
(** * The formula override *)
(* ===================================================================== *)

(** C10: a [chatDB] made by [NewChatDB] has an empty formula override, no
    sequence of calls on the interface changes the struct, and so the formula
    [GetMessage] selects is a function of the version marker alone: the one
    query it sends is the message query built with that formula. *)
Theorem NewChatDB_formula_of_version `{Driver} `{Semver} (db : sql.DB)
    (self : string) (cs : list call) :
  let d := (invokeAll cs (NewChatDB db self)).2 in
  datetimeFormula (NewChatDB db self) = "" ∧
  d = NewChatDB db self ∧
  ∀ macOSVersion,
    (getDatetimeFormula macOSVersion d).1 = formulaOfVersion macOSVersion ∧
    ∀ messageID (handleMap : gmap Z string) (db' : sql.DB),
      exec db' (messageQuery (formulaOfVersion macOSVersion) messageID)
        = exec db (messageQuery (formulaOfVersion macOSVersion) messageID) →
      (GetMessage messageID handleMap macOSVersion (NewChatDB db' self)).1
        = (GetMessage messageID handleMap macOSVersion d).1.
Proof.
  cbn zeta. rewrite invokeAll_receiver.
  split; [reflexivity|]. split; [reflexivity|].
  intros macOSVersion.
  assert (∀ db0, (getDatetimeFormula macOSVersion (NewChatDB db0 self)).1
                 = formulaOfVersion macOSVersion) as Hformula.
  { intros db0. rewrite getDatetimeFormula_run. reflexivity. }
  split; [apply Hformula|].
  intros messageID handleMap db' Hsame.
  rewrite !GetMessage_run, !Hformula. cbn [fst DB NewChatDB selfHandle].
  rewrite Hsame. reflexivity.
Qed.

Lemma NewChatDB_formula_of_version_witness :
  let row := [Integer 0; Integer 3; Text "hi"; Text "2020-01-01 10:00:00"] in
  let db := storeWith (messageQuery _datetimeFormula 7) [row] in
  let db' := storeWith (messageQuery _datetimeFormula 7) [row] in
  (@GetMessage cellDriver flatSemver 7 ∅ None (NewChatDB db' "Me")).1
  = (@GetMessage cellDriver flatSemver 7 ∅ None
       (@invokeAll cellDriver flatSemver
          [callGetMessage 7 ∅ None; callGetMessageIDs 1] (NewChatDB db "Me")).2).1.
Proof.
  intros row db db'.
  apply (proj2 (proj2 (proj2 (@NewChatDB_formula_of_version cellDriver flatSemver
                                db "Me" [callGetMessage 7 ∅ None; callGetMessageIDs 1]))
                 None) 7%Z ∅ db').
  reflexivity.
Defined.

(* ===================================================================== *)
(** * Outcomes of the three table scans *)
(* ===================================================================== *)

(** The three loops in closed form. *)
Lemma GetChats_unfold `{Driver} (d : chatDB) (contactMap : gmap string Card) :
  GetChats d contactMap =
    match exec (DB d) chatQuery with
    | inl err => (None, Some (Wrap err "query chats table"))
    | inr rs =>
        match forNext (chatsBody contactMap) (failure rs) (rows rs) [] with
        | inl ret => ret
        | inr chats => (Some chats, None)
        end
    end.
Proof.
  unfold GetChats, Query. fold chatQuery.
  destruct (exec (DB d) chatQuery) as [err|rs]; reflexivity.
Qed.

Lemma GetMessageIDs_unfold `{Driver} (d : chatDB) (chatID : Z) :
  GetMessageIDs d chatID =
    match exec (DB d) (messageIDsQuery chatID) with
    | inl err =>
        (None, Some (Wrap err ("query chat_message_join table for chat ID " +:+
                               itoa chatID)))
    | inr rs =>
        match forNext (messageIDsBody chatID) (failure rs) (rows rs) [] with
        | inl ret => ret
        | inr messageIDs => (Some messageIDs, None)
        end
    end.
Proof.
  unfold GetMessageIDs, Query. fold (messageIDsQuery chatID).
  destruct (exec (DB d) (messageIDsQuery chatID)) as [err|rs]; reflexivity.
Qed.

(** A list of delivered rows either decodes as a whole, or splits at its
    first row that does not decode. *)
Lemma decode_split {A E B X : Type} (dec : A → E + B) (enc : X → B) :
  (∀ b, ∃ x, b = enc x) →
  ∀ rws : list A,
    (∃ xs, Forall2 (λ c x, dec c = inr (enc x)) rws xs) ∨
    (∃ good bad rest xs cause,
       rws = good ++ bad :: rest ∧
       Forall2 (λ c x, dec c = inr (enc x)) good xs ∧
       dec bad = inl cause).
Proof.
  intros Hsurj rws. induction rws as [|c rws IH].
  - left. exists []. constructor.
  - destruct (dec c) as [cause|b] eqn:Hc.
    + right. exists [], c, rws, [], cause. split; [done|]. split; [constructor|done].
    + destruct (Hsurj b) as [x ->].
      destruct IH as [(xs & Hxs)|(good & bad & rest & xs & cause & -> & Hgood & Hbad)].
      * left. exists (x :: xs). by constructor.
      * right. exists (c :: good), bad, rest, (x :: xs), cause.
        split; [done|]. split; [by constructor|done].
Qed.

Lemma handle_tuple_surj (b : tuple [ptrInt; ptrString]) :
  ∃ x : Z * string, b = (x.1, (x.2, tt)).
Proof. destruct b as (handleID & handle & []). by exists (handleID, handle). Qed.

Lemma chat_tuple_surj (b : tuple [ptrInt; ptrString; ptrString; ptrString]) :
  ∃ x : Z * string * string * string, b = (x.1.1.1, (x.1.1.2, (x.1.2, (x.2, tt)))).
Proof.
  destruct b as (id & guid & name & displayName & []).
  by exists (id, guid, name, displayName).
Qed.

Lemma join_tuple_surj (b : tuple [ptrInt]) : ∃ x : Z, b = (x, tt).
Proof. destruct b as (messageID & []). by exists messageID. Qed.

Lemma messageIDs_loop_decoded `{Driver} chatID e rws ids acc :
  joinRows rws ids →
  forNext (messageIDsBody chatID) e rws acc = inr (acc ++ ids).
Proof.
  intros Hrows. revert acc.
  induction Hrows as [|cols x rws ids Hscan _ IH]; intros acc; cbn [forNext].
  - by rewrite app_nil_r.
  - unfold messageIDsBody at 1. rewrite Scan_fetched, Hscan, IH, <- app_assoc.
    reflexivity.
Qed.

Lemma messageIDs_loop_read_error `{Driver} chatID e good bad rest ids cause :
  joinRows good ids →
  scanRow [ptrInt] bad = inl cause →
  ∀ acc, forNext (messageIDsBody chatID) e (good ++ bad :: rest) acc =
         inl (None, Some (Wrap cause ("read message ID for chat ID " +:+
                                      itoa chatID))).
Proof.
  intros Hgood Hbad.
  induction Hgood as [|cols x good ids Hscan _ IH]; intros acc; cbn [app forNext].
  - unfold messageIDsBody. by rewrite Scan_fetched, Hbad.
  - unfold messageIDsBody at 1. rewrite Scan_fetched, Hscan. apply IH.
Qed.

Lemma chats_loop_decoded `{Driver} (contactMap : gmap string Card) e rws xs acc :
  chatRows rws xs →
  forNext (chatsBody contactMap) e rws acc =
    inr (acc ++ (resolveChat contactMap <$> xs)).
Proof.
  intros Hrows. revert acc.
  induction Hrows as [|cols x rws xs Hscan _ IH]; intros acc; cbn [forNext].
  - by rewrite app_nil_r.
  - unfold chatsBody at 1. rewrite Scan_fetched, Hscan.
    destruct x as [[[id guid] name] displayName]. cbn [fst snd].
    rewrite IH, fmap_cons, <- app_assoc. reflexivity.
Qed.

Lemma chats_loop_read_error `{Driver} (contactMap : gmap string Card)
    e good bad rest xs cause :
  chatRows good xs →
  scanRow [ptrInt; ptrString; ptrString; ptrString] bad = inl cause →
  ∀ acc, forNext (chatsBody contactMap) e (good ++ bad :: rest) acc =
         inl (None, Some (Wrap cause "read chat")).
Proof.
  intros Hgood Hbad.
  induction Hgood as [|cols x good xs Hscan _ IH]; intros acc; cbn [app forNext].
  - unfold chatsBody. by rewrite Scan_fetched, Hbad.
  - unfold chatsBody at 1. rewrite Scan_fetched, Hscan.
    destruct x as [[[id guid] name] displayName]. cbn [fst snd]. apply IH.
Qed.

(** X8: a join-table row that does not decode makes [GetMessageIDs] return a
    nil slice and the row's [Scan] error wrapped with the chat identifier;
    the identifiers read before it are dropped and the rows after it are not
    read. *)
Theorem GetMessageIDs_read_error `{Driver} (d : chatDB) chatID rs
    good bad rest ids cause :
  exec (DB d) (messageIDsQuery chatID) = inr rs →
  rows rs = good ++ bad :: rest →
  joinRows good ids →
  scanRow [ptrInt] bad = inl cause →
  GetMessageIDs d chatID =
    (None, Some (Wrap cause ("read message ID for chat ID " +:+ itoa chatID))).
Proof.
  intros Hexec Hrows Hgood Hbad.
  rewrite GetMessageIDs_unfold, Hexec, Hrows.
  by rewrite (messageIDs_loop_read_error chatID _ good bad rest ids cause).
Qed.

Lemma GetMessageIDs_read_error_witness :
  @GetMessageIDs cellDriver
    (NewChatDB (storeWith (messageIDsQuery 4)
                  [[Integer 9]; [Null]; [Integer 5]]) "Me") 4
  = (None, Some (Wrap (ScanError 0 (New "converting to int is unsupported"))
                      "read message ID for chat ID 4")).
Proof.
  apply (@GetMessageIDs_read_error cellDriver
           (NewChatDB (storeWith (messageIDsQuery 4)
                         [[Integer 9]; [Null]; [Integer 5]]) "Me") 4
           (@mkResultSet cellDriver [[Integer 9]; [Null]; [Integer 5]] None)
           [[Integer 9]] [Null] [[Integer 5]] [9%Z]
           (ScanError 0 (New "converting to int is unsupported")));
    [reflexivity | reflexivity | repeat constructor | reflexivity].
Defined.

(** X7: a chat row that does not decode makes [GetChats] return a nil slice
    and the row's [Scan] error wrapped with "read chat"; the chats collected
    before it are dropped. *)
Theorem GetChats_read_error `{Driver} (d : chatDB)
    (contactMap : gmap string Card) rs good bad rest xs cause :
  exec (DB d) chatQuery = inr rs →
  rows rs = good ++ bad :: rest →
  chatRows good xs →
  scanRow [ptrInt; ptrString; ptrString; ptrString] bad = inl cause →
  GetChats d contactMap = (None, Some (Wrap cause "read chat")).
Proof.
  intros Hexec Hrows Hgood Hbad.
  rewrite GetChats_unfold, Hexec, Hrows.
  by rewrite (chats_loop_read_error contactMap _ good bad rest xs cause).
Qed.

Lemma GetChats_read_error_witness :
  let rws := [[Integer 1; Text "g1"; Text "chat123"; Text ""];
              [Integer 2; Text "g2"; Text "chat456"; Null]] in
  @GetChats cellDriver (NewChatDB (storeWith chatQuery rws) "Me") ∅
  = (None, Some (Wrap (ScanError 3 (New "converting to string is unsupported"))
                      "read chat")).
Proof.
  intros rws.
  apply (@GetChats_read_error cellDriver
           (NewChatDB (storeWith chatQuery rws) "Me") ∅
           (@mkResultSet cellDriver rws None)
           [[Integer 1; Text "g1"; Text "chat123"; Text ""]]
           [Integer 2; Text "g2"; Text "chat456"; Null] []
           [(1%Z, "g1", "chat123", "")]
           (ScanError 3 (New "converting to string is unsupported")));
    [reflexivity | reflexivity | repeat constructor | reflexivity].
Defined.

(** X3: [GetMessageIDs] has three outcomes and no other: the identifiers of
    all rows, when every row decodes; the wrapped error of the query; the
    wrapped [Scan] error of a delivered row.  The slice is nil exactly when
    the error is not. *)
Theorem GetMessageIDs_outcome `{Driver} (d : chatDB) (chatID : Z) :
  (∃ rs ids,
     exec (DB d) (messageIDsQuery chatID) = inr rs ∧ joinRows (rows rs) ids ∧
     GetMessageIDs d chatID = (Some ids, None)) ∨
  (∃ cause,
     exec (DB d) (messageIDsQuery chatID) = inl cause ∧
     GetMessageIDs d chatID =
       (None, Some (Wrap cause ("query chat_message_join table for chat ID " +:+
                                itoa chatID)))) ∨
  (∃ rs cols cause,
     exec (DB d) (messageIDsQuery chatID) = inr rs ∧ cols ∈ rows rs ∧
     scanRow [ptrInt] cols = inl cause ∧
     GetMessageIDs d chatID =
       (None, Some (Wrap cause ("read message ID for chat ID " +:+
                                itoa chatID)))).
Proof.
  rewrite GetMessageIDs_unfold.
  destruct (exec (DB d) (messageIDsQuery chatID)) as [cause|rs] eqn:Hexec.
  { right; left. by exists cause. }
  destruct (decode_split (scanRow [ptrInt]) (λ x : Z, (x, tt)) join_tuple_surj
              (rows rs))
    as [(ids & Hids)|(good & bad & rest & ids & cause & Hrows & Hgood & Hbad)].
  - left. exists rs, ids. split; [done|]. split; [done|].
    by rewrite (messageIDs_loop_decoded chatID _ (rows rs) ids []).
  - right; right. exists rs, bad, cause. split; [done|].
    split; [rewrite Hrows; set_solver|]. split; [done|].
    rewrite Hrows.
    by rewrite (messageIDs_loop_read_error chatID _ good bad rest ids cause).
Qed.

(** X2: [GetChats] has three outcomes and no other: one resolved chat per
    row, when every row decodes; the wrapped error of the query; the wrapped
    [Scan] error of a delivered row. *)
Theorem GetChats_outcome `{Driver} (d : chatDB) (contactMap : gmap string Card) :
  (∃ rs xs,
     exec (DB d) chatQuery = inr rs ∧ chatRows (rows rs) xs ∧
     GetChats d contactMap = (Some (resolveChat contactMap <$> xs), None)) ∨
  (∃ cause,
     exec (DB d) chatQuery = inl cause ∧
     GetChats d contactMap = (None, Some (Wrap cause "query chats table"))) ∨
  (∃ rs cols cause,
     exec (DB d) chatQuery = inr rs ∧ cols ∈ rows rs ∧
     scanRow [ptrInt; ptrString; ptrString; ptrString] cols = inl cause ∧
     GetChats d contactMap = (None, Some (Wrap cause "read chat"))).
Proof.
  rewrite GetChats_unfold.
  destruct (exec (DB d) chatQuery) as [cause|rs] eqn:Hexec.
  { right; left. by exists cause. }
  destruct (decode_split (scanRow [ptrInt; ptrString; ptrString; ptrString])
              (λ x : Z * string * string * string,
                 (x.1.1.1, (x.1.1.2, (x.1.2, (x.2, tt)))))
              chat_tuple_surj (rows rs))
    as [(xs & Hxs)|(good & bad & rest & xs & cause & Hrows & Hgood & Hbad)].
  - left. exists rs, xs. split; [done|]. split; [done|].
    by rewrite (chats_loop_decoded contactMap _ (rows rs) xs []).
  - right; right. exists rs, bad, cause. split; [done|].
    split; [rewrite Hrows; set_solver|]. split; [done|].
    rewrite Hrows.
    by rewrite (chats_loop_read_error contactMap _ good bad rest xs cause).
Qed.

Lemma handles_loop_read_error `{Driver} (contactMap : gmap string Card)
    e good bad rest (xs : list (Z * string)) cause :
  handleRows good xs →
  scanRow [ptrInt; ptrString] bad = inl cause →
  ∀ acc : gmap Z string,
    NoDup xs.*1 →
    (∀ k, k ∈ xs.*1 → acc !! k = None) →
    forNext (handlesBody contactMap) e (good ++ bad :: rest) acc =
      inl (None, Some (Wrap cause "read handle")).
Proof.
  intros Hgood Hbad.
  induction Hgood as [|cols [handleID handle] good xs Hscan _ IH];
    intros acc Hnd Hfresh; cbn [app forNext].
  - unfold handlesBody. by rewrite Scan_fetched, Hbad.
  - unfold handlesBody at 1. rewrite Scan_fetched, Hscan. cbn [fst snd].
    rewrite fmap_cons in Hnd. apply NoDup_cons in Hnd as [Hnotin Hnd].
    rewrite decide_False; last first.
    { rewrite (Hfresh handleID); [by intros [? ?]|]. rewrite fmap_cons. left. }
    apply IH; [done|].
    intros k Hk. rewrite lookup_insert_ne; [|by intros ->].
    apply Hfresh. rewrite fmap_cons. by right.
Qed.

(** The first row whose identifier has been seen stops the loop, whatever
    follows the rows read so far. *)
Lemma handles_loop_repeat `{Driver} (contactMap : gmap string Card)
    e (pre : list (Z * string)) handleID handle rest :
  ∀ seen (acc : gmap Z string),
  handleRows seen (pre ++ [(handleID, handle)]) →
  NoDup pre.*1 →
  (∀ k, k ∈ pre.*1 → acc !! k = None) →
  handleID ∈ pre.*1 ∨ is_Some (acc !! handleID) →
  forNext (handlesBody contactMap) e (seen ++ rest) acc =
    inl (None, Some (New (duplicateHandleMsg handleID))).
Proof.
  induction pre as [|[k a] pre IH]; intros seen acc Hrows Hnd Hfresh Hseen.
  - apply Forall2_cons_inv_r in Hrows as (cols & seen' & Hscan & _ & ->).
    cbn [app forNext]. unfold handlesBody at 1. rewrite Scan_fetched, Hscan.
    cbn [fst snd]. destruct Hseen as [Hin|Hsome]; [by apply elem_of_nil in Hin|].
    by rewrite decide_True.
  - rewrite <- app_comm_cons in Hrows.
    apply Forall2_cons_inv_r in Hrows as (cols & seen' & Hscan & Hrows & ->).
    cbn [app forNext]. unfold handlesBody at 1. rewrite Scan_fetched, Hscan.
    cbn [fst snd].
    rewrite fmap_cons in Hnd. apply NoDup_cons in Hnd as [Hnotin Hnd].
    assert (acc !! k = None) as Hk by (apply Hfresh; rewrite fmap_cons; left).
    rewrite decide_False; [|by rewrite Hk; intros [? ?]].
    apply IH; [done..| |].
    + intros k' Hk'. rewrite lookup_insert_ne; [|by intros ->].
      apply Hfresh. rewrite fmap_cons. by right.
    + destruct (decide (handleID = k)) as [->|Hne].
      * right. rewrite lookup_insert_eq. by eexists.
      * rewrite lookup_insert_ne; [|done].
        destruct Hseen as [Hin|?]; [|by right].
        rewrite fmap_cons in Hin. apply elem_of_cons in Hin as [?|?]; [done|by left].
Qed.

(** X6: a handle row that does not decode, met before any identifier has
    repeated, makes [GetHandleMap] return a nil map and the row's [Scan]
    error wrapped with "read handle"; the entries built so far are dropped
    and the rows after it are not read. *)
Theorem GetHandleMap_read_error `{Driver} (d : chatDB)
    (contactMap : gmap string Card) rs good bad rest
    (xs : list (Z * string)) cause :
  exec (DB d) handleQuery = inr rs →
  rows rs = good ++ bad :: rest →
  handleRows good xs →
  NoDup xs.*1 →
  scanRow [ptrInt; ptrString] bad = inl cause →
  GetHandleMap d contactMap = (None, Some (Wrap cause "read handle")).
Proof.
  intros Hexec Hrows Hgood Hnd Hbad.
  rewrite GetHandleMap_run, Hexec, Hrows.
  rewrite (handles_loop_read_error contactMap _ good bad rest xs cause);
    [done..|].
  intros k _. apply lookup_empty.
Qed.

Lemma GetHandleMap_read_error_witness :
  let rws := [[Integer 1; Text "+15551234567"]; [Text "two"; Text "bob@example.com"];
              [Integer 1; Text "carol@example.com"]] in
  @GetHandleMap cellDriver (NewChatDB (storeWith handleQuery rws) "Me") ∅
  = (None, Some (Wrap (ScanError 0 (New "converting to int is unsupported"))
                      "read handle")).
Proof.
  intros rws.
  apply (@GetHandleMap_read_error cellDriver
           (NewChatDB (storeWith handleQuery rws) "Me") ∅
           (@mkResultSet cellDriver rws None)
           [[Integer 1; Text "+15551234567"]]
           [Text "two"; Text "bob@example.com"]
           [[Integer 1; Text "carol@example.com"]]
           [(1%Z, "+15551234567")]
           (ScanError 0 (New "converting to int is unsupported")));
    [reflexivity | reflexivity | repeat constructor | | reflexivity].
  apply (bool_decide_unpack (NoDup [1%Z])). vm_compute. exact I.
Defined.

(** The rows read before the loop of [GetHandleMap] stops on a repeated
    identifier. *)
Lemma repeat_in_prefix `{Driver} (contactMap : gmap string Card) e
    rws rest (xs : list (Z * string)) :
  handleRows rws xs →
  ¬ NoDup xs.*1 →
  ∃ cols (handleID : Z) (handle : string),
    cols ∈ rws ∧
    scanRow [ptrInt; ptrString] cols = inr (handleID, (handle, tt)) ∧
    forNext (handlesBody contactMap) e (rws ++ rest) ∅ =
      inl (None, Some (New (duplicateHandleMsg handleID))).
Proof.
  intros Hrows Hdup.
  destruct (first_repeat xs Hdup)
    as (pre & handleID & handle & suf & -> & Hnd & Hin).
  replace (pre ++ (handleID, handle) :: suf)
    with ((pre ++ [(handleID, handle)]) ++ suf) in Hrows
    by (by rewrite <- app_assoc).
  apply Forall2_app_inv_r in Hrows as (seen & later & Hseen & _ & ->).
  pose proof Hseen as Hlast.
  apply Forall2_app_inv_r in Hlast as (seen1 & seen2 & _ & Hcols & ->).
  apply Forall2_cons_inv_r in Hcols as (cols & seen3 & Hscan & _ & ->).
  exists cols, handleID, handle.
  split; [rewrite !elem_of_app, elem_of_cons; auto|]. split; [exact Hscan|].
  rewrite <- app_assoc.
  apply (handles_loop_repeat contactMap e pre handleID handle (later ++ rest));
    [done..| |by left].
  intros k _. apply lookup_empty.
Qed.

(** X1: [GetHandleMap] has four outcomes and no other: the map of all rows,
    when every row decodes and no identifier repeats; the wrapped error of
    the query; the wrapped [Scan] error of a delivered row; the uniqueness
    error naming the identifier of a delivered row.  The map is nil exactly
    when the error is not. *)
Theorem GetHandleMap_outcome `{Driver} (d : chatDB)
    (contactMap : gmap string Card) :
  (∃ rs (xs : list (Z * string)),
     exec (DB d) handleQuery = inr rs ∧ handleRows (rows rs) xs ∧
     NoDup xs.*1 ∧
     GetHandleMap d contactMap =
       (Some (list_to_map (prod_map id (resolveHandle contactMap) <$> xs)),
        None)) ∨
  (∃ cause,
     exec (DB d) handleQuery = inl cause ∧
     GetHandleMap d contactMap = (None, Some (Wrap cause "get handles from DB"))) ∨
  (∃ rs cols cause,
     exec (DB d) handleQuery = inr rs ∧ cols ∈ rows rs ∧
     scanRow [ptrInt; ptrString] cols = inl cause ∧
     GetHandleMap d contactMap = (None, Some (Wrap cause "read handle"))) ∨
  (∃ rs cols (handleID : Z) (handle : string),
     exec (DB d) handleQuery = inr rs ∧ cols ∈ rows rs ∧
     scanRow [ptrInt; ptrString] cols = inr (handleID, (handle, tt)) ∧
     GetHandleMap d contactMap =
       (None, Some (New (duplicateHandleMsg handleID)))).
Proof.
  destruct (exec (DB d) handleQuery) as [cause|rs] eqn:Hexec.
  { right; left. exists cause. split; [done|]. by rewrite GetHandleMap_run, Hexec. }
  destruct (decode_split (scanRow [ptrInt; ptrString])
              (λ x : Z * string, (x.1, (x.2, tt))) handle_tuple_surj (rows rs))
    as [(xs & Hxs)|(good & bad & rest & xs & cause & Hrows & Hgood & Hbad)].
  - destruct (decide (NoDup xs.*1)) as [Hnd|Hdup].
    + left. exists rs, xs. split; [done|]. split; [done|]. split; [done|].
      by apply GetHandleMap_distinct with rs.
    + do 3 right.
      destruct (repeat_in_prefix contactMap (failure rs) (rows rs) [] xs Hxs Hdup)
        as (cols & handleID & handle & Hin & Hscan & Hloop).
      exists rs, cols, handleID, handle.
      split; [done|]. split; [done|]. split; [done|].
      rewrite app_nil_r in Hloop. by rewrite GetHandleMap_run, Hexec, Hloop.
  - destruct (decide (NoDup xs.*1)) as [Hnd|Hdup].
    + right; right; left. exists rs, bad, cause. split; [done|].
      split; [rewrite Hrows; set_solver|]. split; [done|].
      rewrite GetHandleMap_run, Hexec, Hrows.
      rewrite (handles_loop_read_error contactMap _ good bad rest xs cause);
        [done..|].
      intros k _. apply lookup_empty.
    + do 3 right.
      destruct (repeat_in_prefix contactMap (failure rs) good (bad :: rest) xs
                  Hgood Hdup)
        as (cols & handleID & handle & Hin & Hscan & Hloop).
      exists rs, cols, handleID, handle.
      split; [done|]. split; [rewrite Hrows; set_solver|]. split; [done|].
      by rewrite GetHandleMap_run, Hexec, Hrows, Hloop.
Qed.

(* ===================================================================== *)
(** * Outcomes of rendering *)
(* ===================================================================== *)

Lemma line_not_empty (date speaker text : string) : line date speaker text ≠ "".
Proof. unfold line. discriminate. Qed.

(** X4: [GetMessage] returns a nil error exactly when the query succeeds and
    yields a single row, and that row decodes. *)
Theorem GetMessage_success_iff `{Driver} `{Semver} (d : chatDB) messageID
    (handleMap : gmap Z string) macOSVersion :
  (GetMessage messageID handleMap macOSVersion d).1.2 = None ↔
  ∃ rs cols x,
    exec (DB d) (messageQuery (getDatetimeFormula macOSVersion d).1 messageID)
      = inr rs ∧
    rows rs = [cols] ∧
    scanRow [ptrInt; ptrInt; ptrString; ptrString] cols = inr x.
Proof.
  rewrite GetMessage_run. cbn [fst].
  destruct (exec (DB d) _) as [cause|rs].
  { split; [discriminate|]. intros (? & ? & ? & Hrs & _). discriminate Hrs. }
  destruct (rows rs) as [|cols more] eqn:Hrows.
  { split; [discriminate|]. intros (? & ? & ? & [= <-] & Hone & _).
    rewrite Hrows in Hone. discriminate Hone. }
  destruct (scanRow _ cols) as [cause|x] eqn:Hscan.
  { split; [discriminate|]. intros (? & ? & ? & [= <-] & Hone & Hok).
    rewrite Hrows in Hone. injection Hone as <- _. rewrite Hscan in Hok. done. }
  destruct x as (fromMe & handleID & text & date & []).
  destruct more as [|cols' more].
  - split; [|done]. intros _. exists rs, cols. eauto.
  - split; [discriminate|]. intros (? & ? & ? & [= <-] & Hone & _).
    rewrite Hrows in Hone. discriminate Hone.
Qed.

(** X5: the text [GetMessage] returns is empty exactly when it returns an
    error, and every error it returns is a QueryError, a ReadError or a
    DuplicateMessageError by its annotation. *)
Theorem GetMessage_text_and_error `{Driver} `{Semver} (d : chatDB) messageID
    (handleMap : gmap Z string) macOSVersion :
  let r := (GetMessage messageID handleMap macOSVersion d).1 in
  (r.1 = "" ↔ r.2 ≠ None) ∧
  (∀ err, r.2 = Some err →
     error_kind err = Some QueryError ∨
     error_kind err = Some ReadError ∨
     error_kind err = Some DuplicateMessageError).
Proof.
  cbn zeta. rewrite GetMessage_run. cbn [fst].
  destruct (exec (DB d) _) as [cause|rs].
  { split; [done|]. intros err [= <-]. by left. }
  destruct (rows rs) as [|cols more].
  { split; [done|]. intros err [= <-]. right; left. reflexivity. }
  destruct (scanRow _ cols) as [cause|(fromMe & handleID & text & date & [])].
  { split; [done|]. intros err [= <-]. right; left. reflexivity. }
  destruct more as [|cols' more].
  - split; [|done]. cbn [fst snd]. split; [|done].
    intros E. by apply line_not_empty in E.
  - split; [done|]. intros err [= <-]. right; right. reflexivity.
Qed.

(* ===================================================================== *)
(** * The driver's final error *)
(* ===================================================================== *)

(** A loop whose body only reads the fetched row does not depend on how the
    result set ends. *)
Lemma forNext_atEnd `{Driver} {R S : Type} (body : Rows → S → R + S) e e' :
  (∀ r rest locals,
     body {| pending := rest; atEnd := e; lastcols := Some r;
             closed := false; lasterr := None |} locals =
     body {| pending := rest; atEnd := e'; lastcols := Some r;
             closed := false; lasterr := None |} locals) →
  ∀ rws locals, forNext body e rws locals = forNext body e' rws locals.
Proof.
  intros Hbody rws. induction rws as [|r rws IH]; intros locals; cbn [forNext].
  - reflexivity.
  - rewrite Hbody. destruct (body _ locals); [reflexivity|apply IH].
Qed.

(** X9: the three table scans never look at the error with which the driver
    may end a result set: two stores that deliver the same rows get the same
    result, however their result sets end. *)
Theorem scans_ignore_final_error `{Driver} (d d' : chatDB)
    (contactMap : gmap string Card) (chatID : Z) :
  (∀ rs rs', exec (DB d) handleQuery = inr rs →
             exec (DB d') handleQuery = inr rs' → rows rs = rows rs' →
             GetHandleMap d contactMap = GetHandleMap d' contactMap) ∧
  (∀ rs rs', exec (DB d) chatQuery = inr rs →
             exec (DB d') chatQuery = inr rs' → rows rs = rows rs' →
             GetChats d contactMap = GetChats d' contactMap) ∧
  (∀ rs rs', exec (DB d) (messageIDsQuery chatID) = inr rs →
             exec (DB d') (messageIDsQuery chatID) = inr rs' →
             rows rs = rows rs' →
             GetMessageIDs d chatID = GetMessageIDs d' chatID).
Proof.
  split; [|split]; intros rs rs' Hd Hd' Hrows.
  - rewrite !GetHandleMap_run, Hd, Hd', Hrows.
    by rewrite (forNext_atEnd (handlesBody contactMap) (failure rs) (failure rs')).
  - rewrite !GetChats_unfold, Hd, Hd', Hrows.
    by rewrite (forNext_atEnd (chatsBody contactMap) (failure rs) (failure rs')).
  - rewrite !GetMessageIDs_unfold, Hd, Hd', Hrows.
    by rewrite (forNext_atEnd (messageIDsBody chatID) (failure rs) (failure rs')).
Qed.

Lemma scans_ignore_final_error_witness :
  let sound := @mkDB cellDriver (λ _, inr (@mkResultSet cellDriver [[Integer 9]] None)) in
  let broken := @mkDB cellDriver (λ _,
                  inr (@mkResultSet cellDriver [[Integer 9]]
                         (Some (New "disk I/O error")))) in
  @GetMessageIDs cellDriver (NewChatDB sound "Me") 4
  = @GetMessageIDs cellDriver (NewChatDB broken "Me") 4.
Proof.
  intros sound broken.
  apply (proj2 (proj2 (@scans_ignore_final_error cellDriver
                         (NewChatDB sound "Me") (NewChatDB broken "Me") ∅ 4))
           (@mkResultSet cellDriver [[Integer 9]] None)
           (@mkResultSet cellDriver [[Integer 9]] (Some (New "disk I/O error"))));
    reflexivity.
Defined.

(* ===================================================================== *)
(** * Labels are never blank *)
(* ===================================================================== *)

Lemma resolveHandle_not_empty (contactMap : gmap string Card) (handle : string) :
  handle ≠ "" → resolveHandle contactMap handle ≠ "".
Proof.
  intros Hne. unfold resolveHandle.
  destruct (contactMap !! handle) as [card|]; [|done].
  destruct (CardName card) as [name|]; [|done].
  by destruct (String.eqb_spec (GivenName name) "").
Qed.

Lemma resolveChat_not_empty (contactMap : gmap string Card) id guid name displayName :
  name ≠ "" →
  DisplayName (resolveChat contactMap (id, guid, name, displayName)) ≠ "".
Proof.
  intros Hne. cbn [resolveChat DisplayName].
  set (base := if String.eqb displayName "" then name else displayName).
  assert (base ≠ "") as Hbase.
  { subst base. by destruct (String.eqb_spec displayName ""). }
  destruct (contactMap !! base) as [card|]; [|done]. cbn zeta.
  by destruct (String.eqb_spec (PreferredValue card FieldFormattedName) "").
Qed.

(** X10: when no chat row has an empty chat identifier, no returned [Chat]
    has an empty display name, whatever the display-name column and the
    contact map hold. *)
Theorem GetChats_display_name_not_empty `{Driver} (d : chatDB)
    (contactMap : gmap string Card) rs xs :
  exec (DB d) chatQuery = inr rs →
  chatRows (rows rs) xs →
  (∀ id guid name displayName, (id, guid, name, displayName) ∈ xs → name ≠ "") →
  ∃ chats,
    GetChats d contactMap = (Some chats, None) ∧
    ∀ chat, chat ∈ chats → DisplayName chat ≠ "".
Proof.
  intros Hexec Hrows Hnames. exists (resolveChat contactMap <$> xs).
  split.
  { rewrite GetChats_unfold, Hexec.
    by rewrite (chats_loop_decoded contactMap _ (rows rs) xs []). }
  intros chat ([[[id guid] name] displayName] & -> & Hin)%list_elem_of_fmap.
  apply resolveChat_not_empty. by apply (Hnames id guid name displayName).
Qed.

Lemma GetChats_display_name_not_empty_witness :
  let rws := [[Integer 1; Text "g1"; Text "chat123"; Text ""]] in
  ∃ chats,
    @GetChats cellDriver (NewChatDB (storeWith chatQuery rws) "Me")
      {["chat123" := alice]} = (Some chats, None) ∧
    ∀ chat, chat ∈ chats → DisplayName chat ≠ "".
Proof.
  intros rws.
  apply (@GetChats_display_name_not_empty cellDriver
           (NewChatDB (storeWith chatQuery rws) "Me") {["chat123" := alice]}
           (@mkResultSet cellDriver rws None) [(1%Z, "g1", "chat123", "")]
           eq_refl ltac:(repeat constructor)).
  intros id guid name displayName Hin.
  apply list_elem_of_singleton in Hin. injection Hin as _ _ -> _. discriminate.
Defined.

(** X11: when the handle rows have distinct identifiers and no empty
    address, no value of the returned map is empty. *)
Theorem GetHandleMap_label_not_empty `{Driver} (d : chatDB)
    (contactMap : gmap string Card) rs (xs : list (Z * string)) :
  exec (DB d) handleQuery = inr rs →
  handleRows (rows rs) xs →
  NoDup xs.*1 →
  (∀ handleID address, (handleID, address) ∈ xs → address ≠ "") →
  ∃ handleMap : gmap Z string,
    GetHandleMap d contactMap = (Some handleMap, None) ∧
    ∀ handleID label, handleMap !! handleID = Some label → label ≠ "".
Proof.
  intros Hexec Hrows Hnd Haddr. eexists.
  split; [by apply GetHandleMap_distinct with rs|].
  intros handleID label Hlookup.
  apply elem_of_list_to_map_2 in Hlookup.
  apply list_elem_of_fmap in Hlookup as ([k address] & [= -> ->] & Hin).
  apply resolveHandle_not_empty. by apply (Haddr k).
Qed.

Lemma GetHandleMap_label_not_empty_witness :
  let rws := [[Integer 1; Text "+15551234567"]] in
  ∃ handleMap : gmap Z string,
    @GetHandleMap cellDriver (NewChatDB (storeWith handleQuery rws) "Me")
      {["+15551234567" := smiths]} = (Some handleMap, None) ∧
    ∀ handleID label, handleMap !! handleID = Some label → label ≠ "".
Proof.
  intros rws.
  apply (@GetHandleMap_label_not_empty cellDriver
           (NewChatDB (storeWith handleQuery rws) "Me")
           {["+15551234567" := smiths]}
           (@mkResultSet cellDriver rws None) [(1%Z, "+15551234567")]
           eq_refl ltac:(repeat constructor)).
  - apply (bool_decide_unpack (NoDup [1%Z])). vm_compute. exact I.
  - intros handleID address Hin.
    apply list_elem_of_singleton in Hin. injection Hin as _ ->. discriminate.
Defined.

(* ===================================================================== *)
(** * The contact map *)
(* ===================================================================== *)

Lemma handles_loop_contacts `{Driver} (contactMap contactMap' : gmap string Card)
    e rws :
  (∀ cols (handleID : Z) (handle : string),
     cols ∈ rws → scanRow [ptrInt; ptrString] cols = inr (handleID, (handle, tt)) →
     contactMap !! handle = contactMap' !! handle) →
  ∀ acc, forNext (handlesBody contactMap) e rws acc =
         forNext (handlesBody contactMap') e rws acc.
Proof.
  induction rws as [|cols rws IH]; intros Hagree acc; cbn [forNext]; [done|].
  unfold handlesBody at 1 3. rewrite !Scan_fetched.
  destruct (scanRow [ptrInt; ptrString] cols)
    as [cause|(handleID & handle & [])] eqn:Hscan; [done|].
  case_decide; [done|].
  assert (resolveHandle contactMap handle = resolveHandle contactMap' handle) as ->.
  { unfold resolveHandle.
    assert (contactMap !! (handle : string) = contactMap' !! (handle : string))
      as -> by (apply (Hagree cols handleID handle); [apply elem_of_cons; by left|done]).
    done. }
  apply IH. intros cols' k h Hin. apply Hagree. apply elem_of_cons. by right.
Qed.

(** X13: [GetHandleMap] consults the contact map only under the addresses of
    the handle rows: two contact maps that agree on those addresses give the
    same result. *)
Theorem GetHandleMap_contacts_by_address `{Driver} (d : chatDB)
    (contactMap contactMap' : gmap string Card) :
  (∀ rs cols (handleID : Z) (handle : string),
     exec (DB d) handleQuery = inr rs → cols ∈ rows rs →
     scanRow [ptrInt; ptrString] cols = inr (handleID, (handle, tt)) →
     contactMap !! handle = contactMap' !! handle) →
  GetHandleMap d contactMap = GetHandleMap d contactMap'.
Proof.
  intros Hagree. rewrite !GetHandleMap_run.
  destruct (exec (DB d) handleQuery) as [cause|rs] eqn:Hexec; [done|].
  rewrite (handles_loop_contacts contactMap contactMap'); [done|].
  intros cols handleID handle. by apply Hagree.
Qed.

Lemma GetHandleMap_contacts_by_address_witness :
  let rws := [[Integer 1; Text "+15551234567"]] in
  let d := @NewChatDB cellDriver (storeWith handleQuery rws) "Me" in
  @GetHandleMap cellDriver d ∅
  = @GetHandleMap cellDriver d {["carol@example.com" := alice]}.
Proof.
  intros rws d.
  apply (@GetHandleMap_contacts_by_address cellDriver d ∅
           {["carol@example.com" := alice]}).
  intros rs cols handleID handle [= <-] Hin Hscan.
  apply list_elem_of_singleton in Hin. subst cols.
  injection Hscan as _ <-. reflexivity.
Defined.

(* ===================================================================== *)
(** * From the handle table to the rendered line *)
(* ===================================================================== *)

(** X12: rendering a message with the map [GetHandleMap] built from the same
    store: for a message not from the user, the speaker is the contact's
    given name or the raw address of the handle row with the message's
    handle identifier, and the empty string when no handle row has that
    identifier. *)
Theorem GetHandleMap_then_GetMessage `{Driver} `{Semver} (d : chatDB)
    (contactMap : gmap string Card) messageID macOSVersion
    hrs (xs : list (Z * string)) mrs cols (fromMe handleID : Z) (text date : string) :
  exec (DB d) handleQuery = inr hrs →
  handleRows (rows hrs) xs →
  NoDup xs.*1 →
  exec (DB d) (messageQuery (getDatetimeFormula macOSVersion d).1 messageID)
    = inr mrs →
  rows mrs = [cols] →
  scanRow [ptrInt; ptrInt; ptrString; ptrString] cols
    = inr (fromMe, (handleID, (text, (date, tt)))) →
  fromMe ≠ 1%Z →
  ∃ handleMap : gmap Z string,
    GetHandleMap d contactMap = (Some handleMap, None) ∧
    (∀ address, (handleID, address) ∈ xs →
       (GetMessage messageID handleMap macOSVersion d).1
         = (line date (resolveHandle contactMap address) text, None)) ∧
    (handleID ∉ xs.*1 →
       (GetMessage messageID handleMap macOSVersion d).1
         = (line date "" text, None)).
Proof.
  intros Hh Hxs Hnd Hm Hone Hscan Hfrom. eexists.
  split; [by apply GetHandleMap_distinct with hrs|].
  rewrite GetMessage_run, Hm, Hone, Hscan. cbn [fst].
  destruct (Z.eqb_spec fromMe 1) as [|_]; [done|].
  split.
  - intros address Hin.
    assert (list_to_map (prod_map id (resolveHandle contactMap) <$> xs)
              !! handleID = Some (resolveHandle contactMap address)) as ->; [|done].
    apply elem_of_list_to_map; [by rewrite resolved_keys|].
    apply list_elem_of_fmap. by exists (handleID, address).
  - intros Hnotin.
    assert (list_to_map (prod_map id (resolveHandle contactMap) <$> xs)
              !! handleID = (None : option string)) as ->; [|done].
    apply not_elem_of_list_to_map_1. by rewrite resolved_keys.
Qed.

Lemma GetHandleMap_then_GetMessage_witness :
  let d := @NewChatDB cellDriver
             (@mkDB cellDriver (λ q,
                inr (@mkResultSet cellDriver
                       (if String.eqb q handleQuery
                        then [[Integer 3; Text "+15551234567"]]
                        else [[Integer 0; Integer 3; Text "hi";
                               Text "2020-01-01 10:00:00"]]) None))) "Me" in
  ∃ handleMap : gmap Z string,
    @GetHandleMap cellDriver d {["+15551234567" := alice]} = (Some handleMap, None) ∧
    (@GetMessage cellDriver flatSemver 7 handleMap None d).1
      = (line "2020-01-01 10:00:00" "Alice" "hi", None).
Proof.
  intros d.
  destruct (@GetHandleMap_then_GetMessage cellDriver flatSemver d
              {["+15551234567" := alice]} 7 None
              (@mkResultSet cellDriver [[Integer 3; Text "+15551234567"]] None)
              [(3%Z, "+15551234567")]
              (@mkResultSet cellDriver
                 [[Integer 0; Integer 3; Text "hi"; Text "2020-01-01 10:00:00"]] None)
              [Integer 0; Integer 3; Text "hi"; Text "2020-01-01 10:00:00"]
              0%Z 3%Z "hi" "2020-01-01 10:00:00"
              eq_refl ltac:(repeat constructor)
              ltac:(apply (bool_decide_unpack (NoDup [3%Z])); vm_compute; exact I)
              eq_refl eq_refl eq_refl ltac:(discriminate))
    as (handleMap & Hmap & Hfound & _).
  exists handleMap. split; [exact Hmap|].
  apply (Hfound "+15551234567"). left.
Defined.

(* ===================================================================== *)
(** * Queries and calls *)
(* ===================================================================== *)




(** X14: the formula [getDatetimeFormula] returns is never empty: it is the
    non-empty override, or one of the two built-in formulas. *)
Theorem getDatetimeFormula_not_empty `{Driver} `{Semver} (d : chatDB)
    (macOSVersion : option Version) :
  let formula := (getDatetimeFormula macOSVersion d).1 in
  formula ≠ "" ∧
  (formula = datetimeFormula d ∨ formula = _datetimeFormulaLegacy ∨
   formula = _datetimeFormula).
Proof.
  cbn zeta. rewrite getDatetimeFormula_run. cbn [fst].
  destruct (String.eqb_spec (datetimeFormula d) "") as [E|E]; cbn [negb].
  - destruct (formulaOfVersion_cases macOSVersion)
      as [(v & _ & _ & ->)|[_ ->]]; split; auto; discriminate.
  - split; [done|]. by left.
Qed.

(** X16: calls on the interface do not interfere: in any sequence of calls
    each reply is the reply the call gets when made alone on the same
    [chatDB]. *)
Theorem invokeAll_replies `{Driver} `{Semver} (cs : list call) (d : chatDB) :
  (invokeAll cs d).1 = (λ c, (invoke c d).1) <$> cs.
Proof.
  induction cs as [|c cs IH]; [reflexivity|]. cbn [invokeAll].
  pose proof (invoke_receiver c d) as Hc.
  destruct (invoke c d) as [r d1] eqn:Hr. cbn [snd] in Hc. subst d1.
  destruct (invokeAll cs d) as [rs d2]. cbn [fst] in IH |- *.
  by rewrite fmap_cons, Hr, IH.
Qed.
